(** * ElectroMart payment service: routes of paymentRoutes.js

    A shallow embedding of the four Express handlers of the payment
    service (create-payment-intent, confirm-payment, payment-status,
    refund) over an explicit world: the Redis cache behind
    [global.redisClient], the payment collaborator (Stripe) and a clock.
    The order state machine, the idempotency ledger and the webhook
    ingress, which the repository only refers to, are modelled from the
    specification in a module of their own. *)

From stdpp Require Import gmap strings list fin_maps.
From Stdlib Require Import ZArith Lia.

Local Open Scope string_scope.
Local Open Scope Z_scope.

(** ** JSON values kept in the cache *)

Module Json.

(** A number as [JSON.parse] hands it to a handler: a finite double,
    which is an integer multiple of a power of two,
    [mantissa / 2 ^ scale]. Every finite double has this form; what is
    proved of all such quotients holds of the doubles among them. *)
Record number := { mantissa : Z; scale : N }.

#[global] Instance number_eq_dec : EqDecision number.
Proof. solve_decision. Defined.

(** An integer literal. *)
Definition of_Z (n : Z) : number := {| mantissa := n; scale := 0 |}.

Coercion of_Z : Z >-> number.

(** The number has no fractional part. *)
Definition integral (x : number) : bool :=
  mantissa x mod 2 ^ Z.of_N (scale x) =? 0.

(** The value of a number without fractional part. *)
Definition whole (x : number) : Z := mantissa x / 2 ^ Z.of_N (scale x).

(** The objects the handlers stringify are flat: strings, numbers and
    ISO timestamps (a timestamp is kept as the clock reading it prints). *)
Inductive jval : Type :=
| JStr (s : string)
| JNum (n : number)
| JTime (t : Z).

#[global] Instance jval_eq_dec : EqDecision jval.
Proof. solve_decision. Defined.

(** A JSON object; a field that is [undefined] is left out by
    [JSON.stringify], so it is simply absent. *)
Abbreviation jobj := (gmap string jval).

Fixpoint obj (fields : list (string * option jval)) : jobj :=
  match fields with
  | [] => ∅
  | (k, Some v) :: rest => <[k := v]> (obj rest)
  | (_, None) :: rest => obj rest
  end.

(** Template-literal interpolation [`${x}`] of a possibly missing string. *)
Definition tmpl (x : option string) : string :=
  match x with
  | Some s => s
  | None => "undefined"
  end.

(** JavaScript truthiness of a possibly missing string / number. *)
Definition truthy_str (x : option string) : bool :=
  match x with
  | Some s => negb (String.eqb s "")
  | None => false
  end.

Definition truthy_num (x : option number) : bool :=
  match x with
  | Some n => negb (mantissa n =? 0)
  | None => false
  end.

End Json.

(** ** The payment collaborator *)

Module Stripe.
Import Json.

Record Metadata := {
  md_orderId : option string;
  md_userId : option string
}.

Record PaymentIntent := {
  pi_id : string;
  pi_client_secret : string;
  pi_status : string;
  pi_amount : number;
  pi_currency : string;
  pi_metadata : Metadata;
  pi_created : Z
}.

(** Argument of [stripe.paymentIntents.create]. *)
Record CreateParams := {
  cp_amount : option number;
  cp_currency : option string;
  cp_payment_method_types : list string;
  cp_metadata : Metadata;
  cp_description : string;
  cp_payment_method : option string
}.

(** Argument of [stripe.refunds.create]. *)
Record RefundParams := {
  rp_payment_intent : string;
  rp_amount : option number;
  rp_reason : option string
}.

Record Refund := {
  rf_id : string;
  rf_payment_intent : string;
  rf_amount : number;
  rf_currency : string;
  rf_status : string;
  rf_reason : option string
}.

(** Every request sent to the collaborator, in the order it was sent. *)
Inductive Call : Type :=
| CallCreate (p : CreateParams)
| CallRetrieve (id : string)
| CallConfirm (id : string)
| CallRefund (p : RefundParams).

Record State := {
  intents : gmap string PaymentIntent;
  refunds : list Refund;
  calls : list Call
}.

(** What the collaborator decides on its own: the identifier, secret and
    status of a new intent, the status a confirmation ends in, the
    identifier and status of a refund, whether a call fails, and whether
    an unknown identifier is answered by [null] or by an exception. *)
Inductive CreateReply := CreateOk (id secret status : string) | CreateThrows.
Inductive MissingReply := MissingNull | MissingThrows.
Inductive ConfirmReply := ConfirmOk (status : string) | ConfirmThrows.
Inductive RefundReply := RefundOk (id status : string) | RefundThrows.

Record Oracle := {
  on_create : CreateReply;
  on_missing : MissingReply;
  on_confirm : ConfirmReply;
  on_refund : RefundReply
}.

(** The collaborator files every intent under its own identifier. *)
Definition well_formed (s : State) : Prop :=
  forall id pi, intents s !! id = Some pi -> pi_id pi = id.

Definition log (c : Call) (s : State) : State :=
  {| intents := intents s; refunds := refunds s; calls := calls s ++ [c] |}.

(** [None] stands for a rejected promise (the call throws).  The
    collaborator requires an amount and a currency, and never hands an
    identifier out twice. *)
Definition create (o : Oracle) (now : Z) (p : CreateParams) (s : State)
  : option PaymentIntent * State :=
  let s := log (CallCreate p) s in
  match on_create o, cp_amount p, cp_currency p with
  | CreateOk id secret status, Some a, Some c =>
      match intents s !! id with
      | Some _ => (None, s)
      | None =>
          let pi := {| pi_id := id; pi_client_secret := secret;
                       pi_status := status; pi_amount := a; pi_currency := c;
                       pi_metadata := cp_metadata p; pi_created := now |} in
          (Some pi, {| intents := <[id := pi]> (intents s);
                       refunds := refunds s; calls := calls s |})
      end
  | _, _, _ => (None, s)
  end.

(** [Some None] is the answer [null]. *)
Definition retrieve (o : Oracle) (id : string) (s : State)
  : option (option PaymentIntent) * State :=
  let s := log (CallRetrieve id) s in
  match intents s !! id with
  | Some pi => (Some (Some pi), s)
  | None =>
      match on_missing o with
      | MissingNull => (Some None, s)
      | MissingThrows => (None, s)
      end
  end.

Definition with_status (status : string) (pi : PaymentIntent) : PaymentIntent :=
  {| pi_id := pi_id pi; pi_client_secret := pi_client_secret pi;
     pi_status := status; pi_amount := pi_amount pi;
     pi_currency := pi_currency pi; pi_metadata := pi_metadata pi;
     pi_created := pi_created pi |}.

Definition confirm (o : Oracle) (id : string) (s : State)
  : option PaymentIntent * State :=
  let s := log (CallConfirm id) s in
  match intents s !! id, on_confirm o with
  | Some pi, ConfirmOk status =>
      let pi' := with_status status pi in
      (Some pi', {| intents := <[id := pi']> (intents s);
                    refunds := refunds s; calls := calls s |})
  | _, _ => (None, s)
  end.

Definition refund (o : Oracle) (p : RefundParams) (s : State)
  : option Refund * State :=
  let s := log (CallRefund p) s in
  match intents s !! rp_payment_intent p, on_refund o with
  | Some pi, RefundOk id status =>
      let r := {| rf_id := id; rf_payment_intent := rp_payment_intent p;
                  rf_amount := default (pi_amount pi) (rp_amount p);
                  rf_currency := pi_currency pi; rf_status := status;
                  rf_reason := rp_reason p |} in
      (Some r, {| intents := intents s; refunds := refunds s ++ [r];
                  calls := calls s |})
  | _, _ => (None, s)
  end.

End Stripe.

(** ** The routes *)

Module PaymentRoutes.
Import Json.

(** The Redis cache maps a key to the stored object (the handlers keep
    it stringified; [JSON.parse] of [JSON.stringify] gives the object
    back) and the instant at which it expires; the clock counts seconds.
    The cache itself always answers. *)
Record World := {
  now : Z;
  redis : gmap string (jobj * Z);
  stripe : Stripe.State
}.

(** The JSON bodies the handlers send. *)
Inductive Body : Type :=
| BErrors (errors : list string)
    (* { errors: errors.array() } *)
| BError (error : string)
    (* { error } *)
| BIntent (paymentIntentId clientSecret status : option jval)
    (* { success: true, paymentIntentId, clientSecret, status } *)
| BConfirm (status message : string)
    (* { success: true, status, message } *)
| BPayment (payment : jobj)
    (* { success: true, payment } *)
| BRefund (refundId status message : string).
    (* { success: true, refundId, status, message } *)

Record Response := { code : Z; body : Body }.

(** [res.json(b)] answers with status 200. *)
Definition json (b : Body) : Response := {| code := 200; body := b |}.
Definition status_json (c : Z) (b : Body) : Response := {| code := c; body := b |}.

(** *** Handler monad: state, early [return] and exceptions *)

Inductive outcome (A : Type) : Type :=
| Value (a : A)
| Returned (r : Response)
| Thrown.
Arguments Value {A} a.
Arguments Returned {A} r.
Arguments Thrown {A}.

Definition M (A : Type) : Type := World -> outcome A * World.

Definition ret {A} (a : A) : M A := fun w => (Value a, w).

Definition bind {A B} (m : M A) (k : A -> M B) : M B :=
  fun w =>
    match m w with
    | (Value a, w') => k a w'
    | (Returned r, w') => (Returned r, w')
    | (Thrown, w') => (Thrown, w')
    end.

Notation "'await' x <- m ; k" := (bind m (fun x => k))
  (at level 10, x name, m at level 100, k at level 200).
Notation "'exec' m ; k" := (bind m (fun _ => k))
  (at level 10, m at level 100, k at level 200).

(** [return res.status(c).json(b)] *)
Definition respond {A} (r : Response) : M A := fun w => (Returned r, w).

(** [try { ... } catch (error) { res.status(500).json(...) }] *)
Definition try_catch (m : M Response) (on_error : Response)
  : World -> Response * World :=
  fun w =>
    match m w with
    | (Value r, w') => (r, w')
    | (Returned r, w') => (r, w')
    | (Thrown, w') => (on_error, w')
    end.

Definition clock : M Z := fun w => (Value (now w), w).

(** [global.redisClient.get(key)]: [null] once the entry has expired. *)
Definition lookup_live (t : Z) (store : gmap string (jobj * Z)) (key : string)
  : option jobj :=
  match store !! key with
  | Some (v, expires) => if t <? expires then Some v else None
  | None => None
  end.

Definition redis_get (key : string) : M (option jobj) :=
  fun w => (Value (lookup_live (now w) (redis w) key), w).

(** [global.redisClient.setEx(key, seconds, value)] *)
Definition redis_setEx (key : string) (seconds : Z) (value : jobj) : M unit :=
  fun w => (Value tt, {| now := now w;
                         redis := <[key := (value, now w + seconds)]> (redis w);
                         stripe := stripe w |}).

(** A call to the collaborator: a rejected promise is an exception. *)
Definition call_stripe {A} (f : Stripe.State -> option A * Stripe.State) : M A :=
  fun w =>
    let '(r, s) := f (stripe w) in
    (match r with Some a => Value a | None => Thrown end,
     {| now := now w; redis := redis w; stripe := s |}).

(** *** express-validator chains

    The request fields have the types of the route's Swagger schema,
    an amount being the number the body parser delivers; [None] is a
    field the body does not carry. *)

(** [isInt({ min })] tests [String(value)] against the pattern of an
    integer and compares it with [min]. [String] prints a double as
    digits alone when it has no fractional part and is below 10^21 in
    magnitude; a fraction prints with a point and a number from 10^21
    on in exponent notation ([1e+21]), which the pattern refuses. *)
Definition isInt (min : Z) (x : option number) : bool :=
  match x with
  | Some n => integral n && (Z.abs (whole n) <? 10 ^ 21) && (min <=? whole n)
  | None => false
  end.

Definition isIn (allowed : list string) (x : option string) : bool :=
  match x with
  | Some s => bool_decide (s ∈ allowed)
  | None => false
  end.

Definition notEmpty (x : option string) : bool :=
  match x with
  | Some s => negb (String.eqb s "")
  | None => false
  end.

Definition optional {A} (chain : option A -> bool) (x : option A) : bool :=
  match x with
  | Some _ => chain x
  | None => true
  end.

Definition withMessage (ok : bool) (msg : string) : list string :=
  if ok then [] else [msg].

Record CreateBody := {
  amount : option number;
  currency : option string;
  orderId : option string;
  paymentMethodId : option string;
  description : option string
}.

Record ConfirmBody := { confirm_paymentIntentId : option string }.

Record RefundBody := {
  refund_paymentIntentId : option string;
  refund_amount : option number;
  reason : option string
}.

Definition validate_create (b : CreateBody) : list string :=
  withMessage (isInt 50 (amount b)) "Amount must be at least 50 cents"
  ++ withMessage (isIn ["usd"; "eur"; "gbp"] (currency b))
       "Currency must be usd, eur, or gbp"
  ++ withMessage (notEmpty (orderId b)) "Order ID is required".

Definition validate_confirm (b : ConfirmBody) : list string :=
  withMessage (notEmpty (confirm_paymentIntentId b)) "Payment intent ID is required".

Definition validate_refund (b : RefundBody) : list string :=
  withMessage (notEmpty (refund_paymentIntentId b)) "Payment intent ID is required"
  ++ withMessage (optional (isInt 1) (refund_amount b)) "Amount must be positive"
  ++ withMessage
       (optional (isIn ["duplicate"; "fraudulent"; "requested_by_customer"]) (reason b))
       "Invalid refund reason".

(** [if (!errors.isEmpty()) return res.status(400).json({ errors })] *)
Definition validationResult (errors : list string) : M unit :=
  match errors with
  | [] => ret tt
  | _ :: _ => respond (status_json 400 (BErrors errors))
  end.

(** *** POST /create-payment-intent

    [userId] is [req.user.userId], set by the [auth] middleware; it is a
    string, so [userId.toString()] is [userId]. *)

(** The argument of [stripe.paymentIntents.create]. *)
Definition create_params (userId : string) (b : CreateBody) : Stripe.CreateParams :=
  {| Stripe.cp_amount := amount b;
     Stripe.cp_currency := currency b;
     Stripe.cp_payment_method_types := ["card"];
     Stripe.cp_metadata :=
       {| Stripe.md_orderId := orderId b;
          Stripe.md_userId := Some userId |};
     Stripe.cp_description :=
       if truthy_str (description b) then tmpl (description b)
       else "Payment for order " +:+ tmpl (orderId b);
     Stripe.cp_payment_method :=
       if truthy_str (paymentMethodId b) then paymentMethodId b else None |}.

(** The object stored under [payment_intent:${orderId}]. *)
Definition intent_data (userId : string) (b : CreateBody)
    (paymentIntent : Stripe.PaymentIntent) (createdAt : Z) : jobj :=
  obj [ ("paymentIntentId", Some (JStr (Stripe.pi_id paymentIntent)));
        ("clientSecret", Some (JStr (Stripe.pi_client_secret paymentIntent)));
        ("status", Some (JStr (Stripe.pi_status paymentIntent)));
        ("amount", JNum <$> amount b);
        ("currency", JStr <$> currency b);
        ("orderId", JStr <$> orderId b);
        ("userId", Some (JStr userId));
        ("createdAt", Some (JTime createdAt)) ].

Definition create_payment_intent (userId : string) (b : CreateBody)
    (o : Stripe.Oracle) : World -> Response * World :=
  try_catch
    (exec validationResult (validate_create b) ;
     let key := "payment_intent:" +:+ tmpl (orderId b) in
     await existingPayment <- redis_get key ;
     match existingPayment with
     | Some paymentData =>
         respond (json (BIntent (paymentData !! "paymentIntentId")
                                (paymentData !! "clientSecret")
                                (paymentData !! "status")))
     | None =>
         await createdAt <- clock ;
         await paymentIntent <-
           call_stripe (Stripe.create o createdAt (create_params userId b)) ;
         exec redis_setEx key 3600 (intent_data userId b paymentIntent createdAt) ;
         ret (json (BIntent (Some (JStr (Stripe.pi_id paymentIntent)))
                            (Some (JStr (Stripe.pi_client_secret paymentIntent)))
                            (Some (JStr (Stripe.pi_status paymentIntent)))))
     end)
    (status_json 500 (BError "Failed to create payment intent")).

(** *** POST /confirm-payment *)

(** [paymentData.status = ...; paymentData.confirmedAt = ...] *)
Definition mark_confirmed (paymentData : jobj)
    (confirmedPayment : Stripe.PaymentIntent) (confirmedAt : Z) : jobj :=
  <["confirmedAt" := JTime confirmedAt]>
    (<["status" := JStr (Stripe.pi_status confirmedPayment)]> paymentData).

(** The object stored under [payment:${confirmedPayment.id}]. *)
Definition payment_data (userId : string)
    (confirmedPayment : Stripe.PaymentIntent) (confirmedAt : Z) : jobj :=
  obj [ ("paymentIntentId", Some (JStr (Stripe.pi_id confirmedPayment)));
        ("orderId", JStr <$> Stripe.md_orderId (Stripe.pi_metadata confirmedPayment));
        ("userId", Some (JStr userId));
        ("amount", Some (JNum (Stripe.pi_amount confirmedPayment)));
        ("currency", Some (JStr (Stripe.pi_currency confirmedPayment)));
        ("status", Some (JStr (Stripe.pi_status confirmedPayment)));
        ("confirmedAt", Some (JTime confirmedAt)) ].

(** The two cache writes of a confirmation that succeeded. *)
Definition store_confirmed (userId : string) (confirmedPayment : Stripe.PaymentIntent)
  : M unit :=
  let orderId := Stripe.md_orderId (Stripe.pi_metadata confirmedPayment) in
  let key := "payment_intent:" +:+ tmpl orderId in
  await cachedPayment <- redis_get key ;
  await confirmedAt <- clock ;
  exec match cachedPayment with
       | Some paymentData =>
           redis_setEx key 3600 (mark_confirmed paymentData confirmedPayment confirmedAt)
       | None => ret tt
       end ;
  redis_setEx ("payment:" +:+ Stripe.pi_id confirmedPayment) 86400
    (payment_data userId confirmedPayment confirmedAt).

(** [paymentIntent.metadata.userId !== userId.toString()] *)
Definition not_owner (userId : string) (paymentIntent : Stripe.PaymentIntent) : bool :=
  negb (bool_decide (Stripe.md_userId (Stripe.pi_metadata paymentIntent) = Some userId)).

Definition confirm_payment (userId : string) (b : ConfirmBody)
    (o : Stripe.Oracle) : World -> Response * World :=
  try_catch
    (exec validationResult (validate_confirm b) ;
     let paymentIntentId := tmpl (confirm_paymentIntentId b) in
     await retrieved <- call_stripe (Stripe.retrieve o paymentIntentId) ;
     match retrieved with
     | None => respond (status_json 404 (BError "Payment intent not found"))
     | Some paymentIntent =>
         if not_owner userId paymentIntent
         then respond (status_json 403 (BError "Access denied"))
         else if String.eqb (Stripe.pi_status paymentIntent) "succeeded"
         then respond (json (BConfirm (Stripe.pi_status paymentIntent)
                                      "Payment already confirmed"))
         else
           await confirmedPayment <- call_stripe (Stripe.confirm o paymentIntentId) ;
           exec (if String.eqb (Stripe.pi_status confirmedPayment) "succeeded"
                 then store_confirmed userId confirmedPayment
                 else ret tt) ;
           ret (json (BConfirm (Stripe.pi_status confirmedPayment)
                        (if String.eqb (Stripe.pi_status confirmedPayment) "succeeded"
                         then "Payment confirmed successfully"
                         else "Payment processing")))
     end)
    (status_json 500 (BError "Failed to confirm payment")).

(** *** GET /payment-status/:paymentIntentId *)

(** The [payment] object built from the collaborator's answer. *)
Definition payment_view (userId : string) (paymentIntent : Stripe.PaymentIntent) : jobj :=
  obj [ ("paymentIntentId", Some (JStr (Stripe.pi_id paymentIntent)));
        ("orderId", JStr <$> Stripe.md_orderId (Stripe.pi_metadata paymentIntent));
        ("userId", Some (JStr userId));
        ("amount", Some (JNum (Stripe.pi_amount paymentIntent)));
        ("currency", Some (JStr (Stripe.pi_currency paymentIntent)));
        ("status", Some (JStr (Stripe.pi_status paymentIntent)));
        ("created", Some (JTime (Stripe.pi_created paymentIntent))) ].

Definition payment_status (userId : string) (paymentIntentId : string)
    (o : Stripe.Oracle) : World -> Response * World :=
  try_catch
    (await cachedPayment <- redis_get ("payment:" +:+ paymentIntentId) ;
     exec match cachedPayment with
          | Some paymentData =>
              if bool_decide (paymentData !! "userId" = Some (JStr userId))
              then respond (json (BPayment paymentData))
              else ret tt
          | None => ret tt
          end ;
     await retrieved <- call_stripe (Stripe.retrieve o paymentIntentId) ;
     match retrieved with
     | None => respond (status_json 404 (BError "Payment not found"))
     | Some paymentIntent =>
         if not_owner userId paymentIntent
         then respond (status_json 403 (BError "Access denied"))
         else ret (json (BPayment (payment_view userId paymentIntent)))
     end)
    (status_json 500 (BError "Failed to get payment status")).

(** *** POST /refund *)

(** The argument of [stripe.refunds.create]. *)
Definition refund_params (b : RefundBody) : Stripe.RefundParams :=
  {| Stripe.rp_payment_intent := tmpl (refund_paymentIntentId b);
     Stripe.rp_amount :=
       if truthy_num (refund_amount b) then refund_amount b else None;
     Stripe.rp_reason :=
       if truthy_str (reason b) then reason b else None |}.

(** The object stored under [refund:${refund.id}]. *)
Definition refund_data (userId : string) (b : RefundBody)
    (paymentIntent : Stripe.PaymentIntent) (refund : Stripe.Refund)
    (createdAt : Z) : jobj :=
  obj [ ("refundId", Some (JStr (Stripe.rf_id refund)));
        ("paymentIntentId", Some (JStr (tmpl (refund_paymentIntentId b))));
        ("orderId", JStr <$> Stripe.md_orderId (Stripe.pi_metadata paymentIntent));
        ("userId", Some (JStr userId));
        ("amount", Some (JNum (Stripe.rf_amount refund)));
        ("currency", Some (JStr (Stripe.rf_currency refund)));
        ("status", Some (JStr (Stripe.rf_status refund)));
        ("reason", JStr <$> Stripe.rf_reason refund);
        ("createdAt", Some (JTime createdAt)) ].

Definition refund (userId : string) (b : RefundBody)
    (o : Stripe.Oracle) : World -> Response * World :=
  try_catch
    (exec validationResult (validate_refund b) ;
     let paymentIntentId := tmpl (refund_paymentIntentId b) in
     await retrieved <- call_stripe (Stripe.retrieve o paymentIntentId) ;
     match retrieved with
     | None => respond (status_json 404 (BError "Payment not found"))
     | Some paymentIntent =>
         if not_owner userId paymentIntent
         then respond (status_json 403 (BError "Access denied"))
         else if negb (String.eqb (Stripe.pi_status paymentIntent) "succeeded")
         then respond (status_json 400 (BError "Payment is not eligible for refund"))
         else
           await refund <- call_stripe (Stripe.refund o (refund_params b)) ;
           await createdAt <- clock ;
           exec redis_setEx ("refund:" +:+ Stripe.rf_id refund) 86400
                  (refund_data userId b paymentIntent refund createdAt) ;
           ret (json (BRefund (Stripe.rf_id refund) (Stripe.rf_status refund)
                        "Refund processed successfully"))
     end)
    (status_json 500 (BError "Failed to process refund")).

(** *** The service as a transition system *)

Inductive Request : Type :=
| CreatePaymentIntent (userId : string) (b : CreateBody)
| ConfirmPayment (userId : string) (b : ConfirmBody)
| PaymentStatus (userId : string) (paymentIntentId : string)
| RefundPayment (userId : string) (b : RefundBody).

Definition handle (r : Request) (o : Stripe.Oracle) : World -> Response * World :=
  match r with
  | CreatePaymentIntent u b => create_payment_intent u b o
  | ConfirmPayment u b => confirm_payment u b o
  | PaymentStatus u id => payment_status u id o
  | RefundPayment u b => refund u b o
  end.

(** Time passing between two requests. *)
Definition elapse (seconds : Z) (w : World) : World :=
  {| now := now w + seconds; redis := redis w; stripe := stripe w |}.

(** The worlds the service can be in: it starts with an empty cache, and
    from then on only its handlers and the clock act. *)
Inductive reachable : World -> Prop :=
| reach_start (t : Z) (s : Stripe.State) :
    Stripe.well_formed s ->
    reachable {| now := t; redis := ∅; stripe := s |}
| reach_handle (w : World) (r : Request) (o : Stripe.Oracle) :
    reachable w -> reachable (snd (handle r o w))
| reach_elapse (w : World) (seconds : Z) :
    0 <= seconds -> reachable w -> reachable (elapse seconds w).

End PaymentRoutes.

(** ** Order state machine, idempotency ledger and webhook ingress

    [index.js] mounts [./routes/webhookRoutes], and the order service is
    present only through its model classes; the webhook handler and the order
    transitions are written down here from sections 3 and 4 of the
    specification. *)

Module Orchestrator.

(** Modelled from the spec: the states of section 4.1 (the order state
    machine has no source file here). *)
Inductive OrderStatus : Type :=
| CREATED | RESERVED | AUTHORIZING | AUTHORIZED | COMPLETED
| CANCELLING | CANCELLED | FAILED.

#[global] Instance OrderStatus_eq_dec : EqDecision OrderStatus.
Proof. solve_decision. Defined.

(** Modelled from the spec: one event per edge kind of section 4.1; the
    specification draws the edges and leaves the events unnamed. *)
Inductive Event : Type :=
| Reserve | StartAuthorization | Authorize | Complete
| Cancel | FinishCancellation | Fail.

(** Modelled from the spec: the transition table of section 4.1,
    [CREATED -> RESERVED -> AUTHORIZING -> AUTHORIZED -> COMPLETED],
    [RESERVED|AUTHORIZING -> CANCELLING -> CANCELLED] and
    [AUTHORIZING -> FAILED]. *)
Definition next (s : OrderStatus) (e : Event) : option OrderStatus :=
  match s, e with
  | CREATED, Reserve => Some RESERVED
  | RESERVED, StartAuthorization => Some AUTHORIZING
  | RESERVED, Cancel => Some CANCELLING
  | AUTHORIZING, Authorize => Some AUTHORIZED
  | AUTHORIZING, Cancel => Some CANCELLING
  | AUTHORIZING, Fail => Some FAILED
  | AUTHORIZED, Complete => Some COMPLETED
  | CANCELLING, FinishCancellation => Some CANCELLED
  | _, _ => None
  end.


(** Modelled from the spec: the Order of section 3, with the attributes
    the transitions read or write. *)
Record Order := {
  order_id : string;
  owner : string;
  total : Z;
  status : OrderStatus;
  version : Z
}.

(** Modelled from the spec: the domain event a transition returns for
    publication. *)
Record DomainEvent := {
  de_order : string;
  de_from : OrderStatus;
  de_to : OrderStatus;
  de_version : Z
}.

(** Modelled from the spec: the part of the taxonomy of section 7 that
    transitions and webhooks raise; [UnknownOrderError] answers an
    identifier no order is stored under, a case the contract leaves open. *)
Inductive Error : Type :=
| ConflictError
| IllegalTransitionError
| UnknownOrderError
| UnknownAttemptError.

(** Modelled from the spec: [transition(orderId, event, expectedVersion)]
    of section 4.1, which the order service's model classes do not
    contain; the checks come in the order the contract lists them,
    version first, legality of the event second. *)
Definition transition (orders : gmap string Order) (orderId : string)
    (event : Event) (expectedVersion : Z)
  : (Error + Order * DomainEvent) * gmap string Order :=
  match orders !! orderId with
  | None => (inl UnknownOrderError, orders)
  | Some o =>
      if negb (version o =? expectedVersion) then (inl ConflictError, orders)
      else
        match next (status o) event with
        | None => (inl IllegalTransitionError, orders)
        | Some s' =>
            let o' := {| order_id := order_id o; owner := owner o;
                         total := total o; status := s';
                         version := version o + 1 |} in
            (inr (o', {| de_order := orderId; de_from := status o;
                         de_to := s'; de_version := version o + 1 |}),
             <[orderId := o']> orders)
        end
  end.


(** Modelled from the spec: the attempt status of section 3; the
    statuses follow the answers of the payment client
    (section 6), [authorized] and [declined] being final. *)
Inductive AttemptStatus : Type :=
| AttemptPending | AttemptAuthorized | AttemptDeclined.

(** Modelled from the spec: the final attempt statuses of section 3
    ("terminal states are final and immutable"). *)
Definition attempt_terminal (s : AttemptStatus) : bool :=
  match s with
  | AttemptPending => false
  | AttemptAuthorized | AttemptDeclined => true
  end.

(** Modelled from the spec: the PaymentAttempt record of section 3,
    with its identity, owning order, idempotency key and status. *)
Record PaymentAttempt := {
  attempt_id : string;
  attempt_order : string;
  idempotency_key : string;
  attempt_status : AttemptStatus
}.

(** Modelled from the spec: the event types a webhook carries, the
    answers of the payment client in section 6. *)
Inductive EventType : Type := authorized | declined | pending.

(** Modelled from the spec: the arguments of [handleEvent] of section
    4.3; the payload is opaque to the handler and left out. *)
Record WebhookEvent := {
  externalReference : string;
  eventType : EventType;
  eventId : string
}.

(** Modelled from the spec: the persisted state of section 6; attempts
    are looked up by external reference, ledger records carry their
    expiry instant. *)
Record State := {
  time : Z;
  orders : gmap string Order;
  attempts : gmap string PaymentAttempt;
  ledger : gmap string Z;
  published : list DomainEvent
}.

(** Modelled from the spec: what [handleEvent] tells its caller; every
    answer acknowledges the delivery (section 4.3). *)
Inductive Ack : Type :=
| Applied
| NoOp
| Rejected (e : Error).

Section Ledger.

(** Modelled from the spec: the retention window of section 4.4, a
    design parameter. *)
Variable retention : Z.

(** Modelled from the spec: a ledger lookup answers [completed] until
    the record expires (section 4.4); [inflight] only arises between
    concurrent callers and has no place in a sequential run. *)
Definition completed (st : State) (key : string) : bool :=
  match ledger st !! key with
  | Some expires => time st <? expires
  | None => false
  end.

(** Modelled from the spec: [commit(key, result)] of section 4.4; the
    record expires one retention window after it is written. *)
Definition commit (key : string) (st : State) : State :=
  {| time := time st; orders := orders st; attempts := attempts st;
     ledger := <[key := time st + retention]> (ledger st);
     published := published st |}.

(** Modelled from the spec: the order transitions an event type maps to,
    identical to the synchronous path of section 4.2. *)
Definition path (t : EventType) : list Event :=
  match t with
  | authorized => [Authorize; Complete]
  | declined => [Fail]
  | pending => []
  end.

(** Modelled from the spec: the attempt status an applied event leaves
    (section 4.2: authorized, declined, or still pending). *)
Definition settled (t : EventType) (s : AttemptStatus) : AttemptStatus :=
  match t with
  | authorized => AttemptAuthorized
  | declined => AttemptDeclined
  | pending => s
  end.

(** Modelled from the spec: the order is driven along the events of
    [path], each transition taken at the version the previous one left;
    a transition that fails stops the drive with its error. *)
Fixpoint drive (orderId : string) (events : list Event)
    (os : gmap string Order) (evs : list DomainEvent)
  : Error + gmap string Order * list DomainEvent :=
  match events with
  | [] => inr (os, evs)
  | e :: rest =>
      match os !! orderId with
      | None => inl UnknownOrderError
      | Some o =>
          match transition os orderId e (version o) with
          | (inl err, _) => inl err
          | (inr (_, de), os') => drive orderId rest os' (evs ++ [de])
          end
      end
  end.

(** Modelled from the spec: [handleEvent(externalReference, eventType,
    payload, eventId)] of section 4.3, the handler behind
    [routes/webhookRoutes], which [index.js] mounts and whose file is
    missing: unknown attempt first, then the ledger, then the terminal
    check, then the transitions. *)
Definition handleEvent (e : WebhookEvent) (st : State) : Ack * State :=
  match attempts st !! externalReference e with
  | None => (Rejected UnknownAttemptError, st)
  | Some a =>
      if completed st ("webhook:" +:+ eventId e) then (NoOp, st)
      else if attempt_terminal (attempt_status a) then (NoOp, st)
      else
        match drive (attempt_order a) (path (eventType e)) (orders st) [] with
        | inl err => (Rejected err, st)
        | inr (os, evs) =>
            let a' := {| attempt_id := attempt_id a;
                         attempt_order := attempt_order a;
                         idempotency_key := idempotency_key a;
                         attempt_status := settled (eventType e) (attempt_status a) |} in
            (Applied,
             commit ("webhook:" +:+ eventId e)
               {| time := time st; orders := os;
                  attempts := <[externalReference e := a']> (attempts st);
                  ledger := ledger st;
                  published := published st ++ evs |})
        end
  end.

(** Modelled from the spec: what can happen between two deliveries of
    section 4.3, other deliveries and the passing of time. *)
Inductive Step : Type :=
| Deliver (e : WebhookEvent)
| Elapse (seconds : Z).

(** Modelled from the spec: one delivery handled, or time passing. *)
Definition step (s : Step) (st : State) : State :=
  match s with
  | Deliver e => snd (handleEvent e st)
  | Elapse d =>
      {| time := time st + d; orders := orders st; attempts := attempts st;
         ledger := ledger st; published := published st |}
  end.

(** Modelled from the spec: a sequence of deliveries and delays. *)
Definition run (steps : list Step) (st : State) : State :=
  fold_left (fun acc s => step s acc) steps st.

End Ledger.

End Orchestrator.


(** ** Order service: the address value classes

    [ShippingAddress] and [BillingAddress] of the order service's model
    package.  A Java reference may be [null], so a field is an
    [option string]; strings are kept as their bytes, on which [trim]
    (which removes leading and trailing characters up to the space)
    acts as it does on the characters. *)

Module Address.

(** String conversion of a reference, as string concatenation and
    [StringBuilder.append] do it: [null] prints as "null". *)
Definition str (s : option string) : string :=
  match s with
  | Some v => v
  | None => "null"
  end.

(** The characters [String.trim] removes: code points up to U+0020. *)
Definition is_space (c : Ascii.ascii) : bool := (Ascii.nat_of_ascii c <=? 32)%nat.

Fixpoint trim_start (s : string) : string :=
  match s with
  | EmptyString => EmptyString
  | String c rest => if is_space c then trim_start rest else s
  end.

Fixpoint trim_end (s : string) : string :=
  match s with
  | EmptyString => EmptyString
  | String c rest =>
      match trim_end rest with
      | EmptyString => if is_space c then EmptyString else String c EmptyString
      | kept => String c kept
      end
  end.

(** [s.trim()] *)
Definition trim (s : string) : string := trim_end (trim_start s).

(** [s.isEmpty()] *)
Definition isEmpty (s : string) : bool :=
  match s with
  | EmptyString => true
  | String _ _ => false
  end.

Record ShippingAddress := {
  firstName : option string;
  lastName : option string;
  street : option string;
  street2 : option string;
  city : option string;
  state : option string;
  zipCode : option string;
  country : option string;
  phone : option string;
  email : option string
}.

(** [new ShippingAddress(firstName, lastName, street, city, state,
    zipCode, country)]: the other fields stay [null]. *)
Definition newShippingAddress (firstName lastName street city state zipCode
    country : option string) : ShippingAddress :=
  {| firstName := firstName; lastName := lastName; street := street;
     street2 := None; city := city; state := state; zipCode := zipCode;
     country := country; phone := None; email := None |}.

Definition setStreet2 (a : ShippingAddress) (v : option string) : ShippingAddress :=
  {| firstName := firstName a; lastName := lastName a; street := street a;
     street2 := v; city := city a; state := state a; zipCode := zipCode a;
     country := country a; phone := phone a; email := email a |}.

(** [firstName + " " + lastName] *)
Definition getFullName (a : ShippingAddress) : string :=
  str (firstName a) +:+ " " +:+ str (lastName a).

Definition getFullAddress (a : ShippingAddress) : string :=
  let address := str (street a) in
  let address :=
    match street2 a with
    | Some s2 =>
        if negb (isEmpty (trim s2)) then address +:+ ", " +:+ s2 else address
    | None => address
    end in
  let address :=
    address +:+ ", " +:+ str (city a) +:+ ", " +:+ str (state a)
    +:+ " " +:+ str (zipCode a) in
  address +:+ ", " +:+ str (country a).

Record BillingAddress := {
  billing_firstName : option string;
  billing_lastName : option string;
  billing_street : option string;
  billing_street2 : option string;
  billing_city : option string;
  billing_state : option string;
  billing_zipCode : option string;
  billing_country : option string;
  billing_phone : option string;
  billing_email : option string
}.

(** [BillingAddress.getFullName] *)
Definition billing_getFullName (a : BillingAddress) : string :=
  str (billing_firstName a) +:+ " " +:+ str (billing_lastName a).

(** [BillingAddress.getFullAddress] *)
Definition billing_getFullAddress (a : BillingAddress) : string :=
  let address := str (billing_street a) in
  let address :=
    match billing_street2 a with
    | Some s2 =>
        if negb (isEmpty (trim s2)) then address +:+ ", " +:+ s2 else address
    | None => address
    end in
  let address :=
    address +:+ ", " +:+ str (billing_city a) +:+ ", " +:+ str (billing_state a)
    +:+ " " +:+ str (billing_zipCode a) in
  address +:+ ", " +:+ str (billing_country a).

End Address.
(** * Properties of the routes *)

Import Json PaymentRoutes.

(** What a request must satisfy to get past its validators, and the
    payment intent it names. *)
Definition validation_errors (r : Request) : list string :=
  match r with
  | CreatePaymentIntent _ b => validate_create b
  | ConfirmPayment _ b => validate_confirm b
  | PaymentStatus _ _ => []
  | RefundPayment _ b => validate_refund b
  end.

Definition requester (r : Request) : string :=
  match r with
  | CreatePaymentIntent u _ | ConfirmPayment u _
  | PaymentStatus u _ | RefundPayment u _ => u
  end.

(** The calls a handler added to the collaborator's log. *)
Definition sent (w w' : World) (cs : list Stripe.Call) : Prop :=
  Stripe.calls (stripe w') = (Stripe.calls (stripe w) ++ cs)%list.

(** The world after a handler that only looked an intent up. *)
Definition looked_up (id : string) (w : World) : World :=
  {| now := now w; redis := redis w;
     stripe := Stripe.log (Stripe.CallRetrieve id) (stripe w) |}.

(** The key of the record create-payment-intent keeps for an order. *)
Definition intent_key (b : CreateBody) : string :=
  "payment_intent:" +:+ tmpl (orderId b).


(** The payment intent a request names. *)
Definition target (r : Request) : option string :=
  match r with
  | CreatePaymentIntent _ _ => None
  | ConfirmPayment _ b => Some (tmpl (confirm_paymentIntentId b))
  | PaymentStatus _ id => Some id
  | RefundPayment _ b => Some (tmpl (refund_paymentIntentId b))
  end.

(** How often the collaborator was asked to confirm an intent. *)
Definition is_confirm_of (id : string) (c : Stripe.Call) : bool :=
  match c with
  | Stripe.CallConfirm id' => String.eqb id' id
  | _ => false
  end.

Definition confirmations (id : string) (w : World) : nat :=
  length (List.filter (is_confirm_of id) (Stripe.calls (stripe w))).

(** A run of the service: requests, each with the collaborator's answers,
    and pauses. *)
Inductive Action : Type :=
| Handle (r : Request) (o : Stripe.Oracle)
| Wait (seconds : Z).

Definition perform (a : Action) (w : World) : World :=
  match a with
  | Handle r o => snd (handle r o w)
  | Wait d => elapse d w
  end.

Definition perform_all (actions : list Action) (w : World) : World :=
  fold_left (fun acc a => perform a acc) actions w.

(** Every cached [payment:] record belongs to the user the intent's
    metadata names. *)
Definition cache_consistent (w : World) : Prop :=
  forall id rec expires u,
    redis w !! ("payment:" +:+ id) = Some (rec, expires) ->
    rec !! "userId" = Some (JStr u) ->
    exists pi, Stripe.intents (stripe w) !! id = Some pi
               /\ Stripe.md_userId (Stripe.pi_metadata pi) = Some u.




(** A handler left every stored thing as it was: the clock, the cache
    and the collaborator's intents and refunds. *)
Definition unchanged (w w' : World) : Prop :=
  now w' = now w
  /\ redis w' = redis w
  /\ Stripe.intents (stripe w') = Stripe.intents (stripe w)
  /\ Stripe.refunds (stripe w') = Stripe.refunds (stripe w).

(** create-payment-intent answers with the record stored for the order
    and does nothing else. *)
Definition replays_stored_result (u : string) (b : CreateBody)
    (o : Stripe.Oracle) (w : World) : Prop :=
  forall rec,
    lookup_live (now w) (redis w) (intent_key b) = Some rec ->
    create_payment_intent u b o w
    = (json (BIntent (rec !! "paymentIntentId") (rec !! "clientSecret")
               (rec !! "status")), w).

(** refund answers 400 "not eligible" after looking the intent up. *)
Definition refund_refused (u : string) (b : RefundBody)
    (o : Stripe.Oracle) (w : World) : Prop :=
  refund u b o w
  = (status_json 400 (BError "Payment is not eligible for refund"),
     looked_up (tmpl (refund_paymentIntentId b)) w).

(** A handler answers 403 after looking the intent up. *)
Definition access_denied (r : Request) (o : Stripe.Oracle) (w : World)
    (id : string) : Prop :=
  handle r o w = (status_json 403 (BError "Access denied"), looked_up id w).

(** *** A sample run

    The scenario of the specification: an order of 999.99 is paid by
    its owner. *)
Definition stripe0 : Stripe.State :=
  {| Stripe.intents := ∅; Stripe.refunds := []; Stripe.calls := [] |}.

Definition world0 : World := {| now := 0; redis := ∅; stripe := stripe0 |}.

Definition answers : Stripe.Oracle :=
  {| Stripe.on_create := Stripe.CreateOk "pi_1" "secret_1" "requires_payment_method";
     Stripe.on_missing := Stripe.MissingThrows;
     Stripe.on_confirm := Stripe.ConfirmOk "succeeded";
     Stripe.on_refund := Stripe.RefundOk "re_1" "succeeded" |}.

Definition order1 : CreateBody :=
  {| amount := Some (of_Z 99999); currency := Some "usd"; orderId := Some "order-1";
     paymentMethodId := None; description := None |}.


(** The same order with an amount under the minimum charge. *)
Definition order1_small : CreateBody :=
  {| amount := Some (of_Z 10); currency := Some "usd"; orderId := Some "order-1";
     paymentMethodId := None; description := None |}.

Definition confirm1 : ConfirmBody := {| confirm_paymentIntentId := Some "pi_1" |}.

Definition refund1 : RefundBody :=
  {| refund_paymentIntentId := Some "pi_1"; refund_amount := None; reason := None |}.

Definition refund1_zero : RefundBody :=
  {| refund_paymentIntentId := Some "pi_1"; refund_amount := Some (of_Z 0);
     reason := None |}.

(** alice has created the intent for order-1 ... *)
Definition world1 : World :=
  snd (create_payment_intent "alice" order1 answers world0).

(** ... and confirmed it. *)
Definition world2 : World :=
  snd (confirm_payment "alice" confirm1 answers world1).

Definition pi_1 (status : string) : Stripe.PaymentIntent :=
  {| Stripe.pi_id := "pi_1"; Stripe.pi_client_secret := "secret_1";
     Stripe.pi_status := status; Stripe.pi_amount := 99999;
     Stripe.pi_currency := "usd";
     Stripe.pi_metadata := {| Stripe.md_orderId := Some "order-1";
                              Stripe.md_userId := Some "alice" |};
     Stripe.pi_created := 0 |}.

(** The collaborator's answers for a second intent. *)
Definition answers2 : Stripe.Oracle :=
  {| Stripe.on_create := Stripe.CreateOk "pi_2" "secret_2" "requires_payment_method";
     Stripe.on_missing := Stripe.MissingThrows;
     Stripe.on_confirm := Stripe.ConfirmOk "succeeded";
     Stripe.on_refund := Stripe.RefundOk "re_2" "succeeded" |}.

(** The collaborator's answers when a confirmation is still processing. *)
Definition answers_processing : Stripe.Oracle :=
  {| Stripe.on_create := Stripe.CreateOk "pi_1" "secret_1" "requires_payment_method";
     Stripe.on_missing := Stripe.MissingThrows;
     Stripe.on_confirm := Stripe.ConfirmOk "processing";
     Stripe.on_refund := Stripe.RefundOk "re_1" "succeeded" |}.

(** ** Statements about the order state machine and the webhooks *)

Import Orchestrator.

(** No state transition took place between two states: orders, payment
    attempts and published domain events are the same. *)
Definition same_state (st st' : State) : Prop :=
  orders st' = orders st
  /\ attempts st' = attempts st
  /\ published st' = published st.

(** The order of the sample run while its payment is being authorized,
    and once it is completed. *)
Definition order1_authorizing : Order :=
  {| order_id := "order-1"; owner := "alice"; total := 99999;
     status := AUTHORIZING; version := 2 |}.

Definition order1_completed : Order :=
  {| order_id := "order-1"; owner := "alice"; total := 99999;
     status := COMPLETED; version := 4 |}.

Definition attempt1 : PaymentAttempt :=
  {| attempt_id := "attempt-1"; attempt_order := "order-1";
     idempotency_key := "K1"; attempt_status := AttemptPending |}.

Definition awaiting_webhook : State :=
  {| time := 0;
     orders := {[ "order-1" := order1_authorizing ]};
     attempts := {[ "pi_1" := attempt1 ]};
     ledger := ∅;
     published := [] |}.

Definition evt_authorized : WebhookEvent :=
  {| externalReference := "pi_1"; eventType := authorized; eventId := "evt_1" |}.

Definition evt_declined : WebhookEvent :=
  {| externalReference := "pi_1"; eventType := declined; eventId := "evt_2" |}.

(** ** Further statements about the routes *)

(** The answer of a handler whose intent the collaborator does not know:
    404 when the collaborator answers [null], the handler's own 500 when
    it throws. *)
Definition unknown_intent_answer (r : Request) (o : Stripe.Oracle) : Response :=
  match Stripe.on_missing o, r with
  | Stripe.MissingNull, ConfirmPayment _ _ =>
      status_json 404 (BError "Payment intent not found")
  | Stripe.MissingNull, _ => status_json 404 (BError "Payment not found")
  | Stripe.MissingThrows, CreatePaymentIntent _ _ =>
      status_json 500 (BError "Failed to create payment intent")
  | Stripe.MissingThrows, ConfirmPayment _ _ =>
      status_json 500 (BError "Failed to confirm payment")
  | Stripe.MissingThrows, PaymentStatus _ _ =>
      status_json 500 (BError "Failed to get payment status")
  | Stripe.MissingThrows, RefundPayment _ _ =>
      status_json 500 (BError "Failed to process refund")
  end.

(** The sequences of calls a handler may send to the collaborator. *)
Definition possible_calls (r : Request) : list (list Stripe.Call) :=
  match r with
  | CreatePaymentIntent u b => [ []; [Stripe.CallCreate (create_params u b)] ]
  | ConfirmPayment _ b =>
      let id := tmpl (confirm_paymentIntentId b) in
      [ []; [Stripe.CallRetrieve id]; [Stripe.CallRetrieve id; Stripe.CallConfirm id] ]
  | PaymentStatus _ id => [ []; [Stripe.CallRetrieve id] ]
  | RefundPayment _ b =>
      let id := tmpl (refund_paymentIntentId b) in
      [ []; [Stripe.CallRetrieve id];
        [Stripe.CallRetrieve id; Stripe.CallRefund (refund_params b)] ]
  end.

(** The status codes a handler may answer with. *)
Definition possible_codes (r : Request) : list Z :=
  match r with
  | CreatePaymentIntent _ _ => [200; 400; 500]
  | ConfirmPayment _ _ => [200; 400; 403; 404; 500]
  | PaymentStatus _ _ => [200; 403; 404; 500]
  | RefundPayment _ _ => [200; 400; 403; 404; 500]
  end.

(** What the collaborator has done by the time a handler writes to the
    cache: create-payment-intent writes after the collaborator created
    an intent, confirm-payment after it confirmed the intent with status
    'succeeded', refund after it created a refund; payment-status has
    no write. *)
Definition collaborator_did (r : Request) (w w' : World) : Prop :=
  match r with
  | CreatePaymentIntent u b =>
      sent w w' [Stripe.CallCreate (create_params u b)]
      /\ exists pi,
           Stripe.intents (stripe w) !! Stripe.pi_id pi = None
           /\ Stripe.intents (stripe w') !! Stripe.pi_id pi = Some pi
  | ConfirmPayment _ b =>
      let id := tmpl (confirm_paymentIntentId b) in
      sent w w' [Stripe.CallRetrieve id; Stripe.CallConfirm id]
      /\ exists pi,
           Stripe.intents (stripe w') !! id = Some pi
           /\ Stripe.pi_status pi = "succeeded"
  | PaymentStatus _ _ => False
  | RefundPayment _ b =>
      let id := tmpl (refund_paymentIntentId b) in
      sent w w' [Stripe.CallRetrieve id; Stripe.CallRefund (refund_params b)]
      /\ exists rf,
           Stripe.refunds (stripe w') = (Stripe.refunds (stripe w) ++ [rf])%list
  end.

(** Where a handler may write, and for how many seconds. *)
Definition written_by (r : Request) (key : string) (ttl : Z) : Prop :=
  match r with
  | CreatePaymentIntent _ b => key = intent_key b /\ ttl = 3600
  | ConfirmPayment _ _ =>
      (exists orderId, key = "payment_intent:" +:+ orderId) /\ ttl = 3600
      \/ (exists id, key = "payment:" +:+ id) /\ ttl = 86400
  | PaymentStatus _ _ => False
  | RefundPayment _ _ => (exists id, key = "refund:" +:+ id) /\ ttl = 86400
  end.


(** Every cached [payment:] record is the one confirm-payment builds
    from the intent the collaborator holds now, and that intent has
    succeeded. *)
Definition payment_records_fresh (w : World) : Prop :=
  forall id rec expires,
    redis w !! ("payment:" +:+ id) = Some (rec, expires) ->
    exists pi u t,
      Stripe.intents (stripe w) !! id = Some pi
      /\ Stripe.pi_status pi = "succeeded"
      /\ Stripe.md_userId (Stripe.pi_metadata pi) = Some u
      /\ rec = payment_data u pi t.

(** The fields the cached and the fresh answer of payment-status share. *)
Definition payment_fields : list string :=
  ["paymentIntentId"; "orderId"; "userId"; "amount"; "currency"; "status"].

(** A series of refund requests for one body, one per answer of the
    collaborator. *)
Definition refund_repeatedly (u : string) (b : RefundBody)
    (os : list Stripe.Oracle) (w : World) : World :=
  fold_left (fun acc o => snd (refund u b o acc)) os w.

Definition refund_granted (o : Stripe.Oracle) : Prop :=
  exists rid st, Stripe.on_refund o = Stripe.RefundOk rid st.

(** The collaborator is down: every create fails. *)
Definition answers_down : Stripe.Oracle :=
  {| Stripe.on_create := Stripe.CreateThrows;
     Stripe.on_missing := Stripe.MissingThrows;
     Stripe.on_confirm := Stripe.ConfirmThrows;
     Stripe.on_refund := Stripe.RefundThrows |}.

(** The collaborator answers null for an intent it does not know. *)
Definition answers_null : Stripe.Oracle :=
  {| Stripe.on_create := Stripe.CreateThrows;
     Stripe.on_missing := Stripe.MissingNull;
     Stripe.on_confirm := Stripe.ConfirmThrows;
     Stripe.on_refund := Stripe.RefundThrows |}.

(** A refund of 500 cents asked for by the customer. *)
Definition refund1_partial : RefundBody :=
  {| refund_paymentIntentId := Some "pi_1"; refund_amount := Some (of_Z 500);
     reason := Some "requested_by_customer" |}.

(** The cached record payment-status hands to a user: the live
    [payment:] record, when it carries that user's id. *)
Definition cached_for (u : string) (cached : option jobj) : option jobj :=
  match cached with
  | Some rec =>
      if bool_decide (rec !! "userId" = Some (JStr u)) then Some rec else None
  | None => None
  end.

(** The answer of payment-status, read off what it finds in the cache
    and at the collaborator. *)
Definition status_answer (u : string) (cached : option jobj)
    (found : option Stripe.PaymentIntent) (o : Stripe.Oracle) : Response :=
  match cached_for u cached, found with
  | Some rec, _ => json (BPayment rec)
  | None, Some pi =>
      if not_owner u pi then status_json 403 (BError "Access denied")
      else json (BPayment (payment_view u pi))
  | None, None =>
      match Stripe.on_missing o with
      | Stripe.MissingNull => status_json 404 (BError "Payment not found")
      | Stripe.MissingThrows =>
          status_json 500 (BError "Failed to get payment status")
      end
  end.

(** ** Statements about the addresses *)

(** A string without a character above the space. *)
Fixpoint blank (s : string) : bool :=
  match s with
  | EmptyString => true
  | String c rest => Address.is_space c && blank rest
  end.

(** A billing address read as a shipping address, field by field. *)
Definition as_shipping (a : Address.BillingAddress) : Address.ShippingAddress :=
  {| Address.firstName := Address.billing_firstName a;
     Address.lastName := Address.billing_lastName a;
     Address.street := Address.billing_street a;
     Address.street2 := Address.billing_street2 a;
     Address.city := Address.billing_city a;
     Address.state := Address.billing_state a;
     Address.zipCode := Address.billing_zipCode a;
     Address.country := Address.billing_country a;
     Address.phone := Address.billing_phone a;
     Address.email := Address.billing_email a |}.

(** What follows the street lines in a full address. *)
Definition locality (a : Address.ShippingAddress) : string :=
  ", " +:+ Address.str (Address.city a) +:+ ", " +:+ Address.str (Address.state a)
  +:+ " " +:+ Address.str (Address.zipCode a)
  +:+ ", " +:+ Address.str (Address.country a).

Definition warehouse : Address.ShippingAddress :=
  Address.newShippingAddress (Some "Ada") (Some "Lovelace") (Some "12 Main St")
    (Some "Springfield") (Some "IL") (Some "62701") (Some "USA").

Ltac unfold_monad :=
  unfold try_catch, bind, validationResult, respond, ret, call_stripe,
    redis_get, redis_setEx, clock in *.

Ltac unfold_handlers :=
  unfold handle, create_payment_intent, confirm_payment, payment_status,
    refund, store_confirmed in *.

(** ** The collaborator's operations *)

Section StripeFacts.
Import Stripe.

Lemma create_inv o t p s r s' :
  create o t p s = (r, s') ->
  calls s' = (calls s ++ [CallCreate p])%list
  /\ refunds s' = refunds s
  /\ match r with
     | Some pi =>
         intents s !! pi_id pi = None
         /\ intents s' = <[pi_id pi := pi]> (intents s)
         /\ pi_metadata pi = cp_metadata p
         /\ pi_created pi = t
     | None => intents s' = intents s
     end.
Proof.
  unfold create, log. cbn [intents refunds calls].
  destruct (on_create o) as [id secret status|];
    destruct (cp_amount p), (cp_currency p);
    try (intros [= <- <-]; done).
  destruct (intents s !! id) eqn:Hfree; intros [= <- <-]; done.
Qed.

Lemma retrieve_inv o id s r s' :
  retrieve o id s = (r, s') ->
  s' = log (CallRetrieve id) s
  /\ match r with
     | Some (Some pi) => intents s !! id = Some pi
     | _ => intents s !! id = None
     end.
Proof.
  unfold retrieve. cbn [intents log].
  destruct (intents s !! id) eqn:Hid.
  - intros [= <- <-]; done.
  - destruct (on_missing o); intros [= <- <-]; done.
Qed.

Lemma retrieve_found o id s pi :
  intents s !! id = Some pi ->
  retrieve o id s = (Some (Some pi), log (CallRetrieve id) s).
Proof. intros Hid. unfold retrieve. cbn [intents log]. by rewrite Hid. Qed.

Lemma confirm_inv o id s r s' :
  confirm o id s = (r, s') ->
  calls s' = (calls s ++ [CallConfirm id])%list
  /\ refunds s' = refunds s
  /\ match r with
     | Some pi' =>
         exists pi status,
           intents s !! id = Some pi
           /\ pi' = with_status status pi
           /\ intents s' = <[id := pi']> (intents s)
     | None => intents s' = intents s
     end.
Proof.
  unfold confirm, log. cbn [intents refunds calls].
  destruct (intents s !! id) as [pi|] eqn:Hid; [destruct (on_confirm o)|];
    intros [= <- <-]; repeat split; eauto.
Qed.

Lemma refund_inv o p s r s' :
  refund o p s = (r, s') ->
  calls s' = (calls s ++ [CallRefund p])%list
  /\ intents s' = intents s
  /\ match r with
     | Some rf => refunds s' = (refunds s ++ [rf])%list
     | None => refunds s' = refunds s
     end.
Proof.
  unfold refund, log. cbn [intents refunds calls].
  destruct (intents s !! rp_payment_intent p); [destruct (on_refund o)|];
    intros [= <- <-]; done.
Qed.

End StripeFacts.

(** ** Cache keys *)

Lemma payment_key_inj a b : "payment:" +:+ a = "payment:" +:+ b -> a = b.
Proof. by intros [=]. Qed.

Lemma intent_key_inj a b : "payment_intent:" +:+ a = "payment_intent:" +:+ b -> a = b.
Proof. by intros [=]. Qed.

Lemma payment_key_not_intent_key a b : "payment_intent:" +:+ a <> "payment:" +:+ b.
Proof. by intros [=]. Qed.

Lemma payment_key_not_refund_key a b : "refund:" +:+ a <> "payment:" +:+ b.
Proof. by intros [=]. Qed.

Lemma intent_key_not_refund_key a b : "refund:" +:+ a <> "payment_intent:" +:+ b.
Proof. by intros [=]. Qed.

Lemma world_eta (w : World) :
  {| now := now w; redis := redis w; stripe := stripe w |} = w.
Proof. by destruct w. Qed.

(** ** Validation gates *)

Lemma create_invalid u b o w :
  validate_create b <> [] ->
  create_payment_intent u b o w = (status_json 400 (BErrors (validate_create b)), w).
Proof.
  intros Hne. unfold create_payment_intent. unfold_monad.
  destruct (validate_create b); [done | reflexivity].
Qed.

Lemma confirm_invalid u b o w :
  validate_confirm b <> [] ->
  confirm_payment u b o w = (status_json 400 (BErrors (validate_confirm b)), w).
Proof.
  intros Hne. unfold confirm_payment. unfold_monad.
  destruct (validate_confirm b); [done | reflexivity].
Qed.

Lemma invalid_refund_rejected u b o w :
  validate_refund b <> [] ->
  refund u b o w = (status_json 400 (BErrors (validate_refund b)), w).
Proof.
  intros Hne. unfold refund. unfold_monad.
  destruct (validate_refund b); [done | reflexivity].
Qed.

(** C6. A create-payment-intent, confirm-payment or refund request that
    fails input validation is answered 400 with the validation errors,
    and the world is left exactly as it was: nothing is sent to the
    payment collaborator and nothing is written to the cache. *)
Theorem invalid_request_rejected_without_effect (r : Request) (o : Stripe.Oracle)
    (w : World) :
  validation_errors r <> [] ->
  handle r o w = (status_json 400 (BErrors (validation_errors r)), w).
Proof.
  destruct r as [u b | u b | u id | u b]; simpl; intros Hne.
  - by apply create_invalid.
  - by apply confirm_invalid.
  - done.
  - by apply invalid_refund_rejected.
Qed.

Lemma invalid_request_rejected_without_effect_witness :
  validation_errors (RefundPayment "alice" refund1_zero) = ["Amount must be positive"]
  /\ handle (RefundPayment "alice" refund1_zero) answers world2
     = (status_json 400 (BErrors ["Amount must be positive"]), world2).
Proof.
  split; [reflexivity |].
  apply (invalid_request_rejected_without_effect
           (RefundPayment "alice" refund1_zero) answers world2).
  vm_compute. discriminate.
Defined.

(** ** Minimum charge and currency *)










(** ** Replay of a stored result *)

Lemma create_cached u b o w rec :
  validate_create b = [] ->
  lookup_live (now w) (redis w) (intent_key b) = Some rec ->
  create_payment_intent u b o w
  = (json (BIntent (rec !! "paymentIntentId") (rec !! "clientSecret")
             (rec !! "status")), w).
Proof.
  intros Hvalid Hrec. unfold create_payment_intent. unfold_monad.
  rewrite Hvalid. fold (intent_key b). by rewrite Hrec.
Qed.

(** C1, as amended. For every create-payment-intent request that passes
    input validation and whose order has a stored, unexpired record, the
    handler returns exactly the stored paymentIntentId, clientSecret and
    status and re-executes nothing: the world is the same afterwards, so
    no authorization was created and no record written. *)
Theorem stored_result_replayed (u : string) (b : CreateBody)
    (o : Stripe.Oracle) (w : World) :
  validate_create b = [] -> replays_stored_result u b o w.
Proof. intros Hvalid rec Hrec. by apply create_cached. Qed.

Lemma stored_result_replayed_witness :
  validate_create order1 = []
  /\ (exists rec, lookup_live (now world1) (redis world1) (intent_key order1) = Some rec)
  /\ replays_stored_result "alice" order1 answers world1.
Proof.
  split; [reflexivity |]. split.
  - eexists. vm_compute. reflexivity.
  - apply (stored_result_replayed "alice" order1 answers world1). reflexivity.
Defined.

(** C1 as stated fails: a request for an order that has a stored record
    but whose amount is under the minimum is answered 400, not with the
    stored result. *)
Lemma stored_result_not_replayed_when_invalid :
  (exists rec, lookup_live (now world1) (redis world1) (intent_key order1_small) = Some rec)
  /\ fst (create_payment_intent "alice" order1_small answers world1)
     = status_json 400 (BErrors ["Amount must be at least 50 cents"])
  /\ ~ replays_stored_result "alice" order1_small answers world1.
Proof.
  split; [eexists; vm_compute; reflexivity |].
  split; [vm_compute; reflexivity |].
  intros Hreplay.
  assert (exists rec, lookup_live (now world1) (redis world1)
                        (intent_key order1_small) = Some rec) as [rec Hrec]
    by (eexists; vm_compute; reflexivity).
  specialize (Hreplay rec Hrec).
  apply (f_equal (fun x => code (fst x))) in Hreplay.
  vm_compute in Hreplay. discriminate.
Qed.

(** ** What a handler can change *)

Ltac invert_stripe :=
  repeat match goal with
  | H : Stripe.create _ _ _ _ = _ |- _ =>
      apply create_inv in H; destruct H as (? & ? & ?)
  | H : Stripe.retrieve _ _ _ = _ |- _ =>
      apply retrieve_inv in H; destruct H as [-> ?]
  | H : Stripe.confirm _ _ _ = _ |- _ =>
      apply confirm_inv in H; destruct H as (? & ? & ?)
  | H : Stripe.refund _ _ _ = _ |- _ =>
      apply refund_inv in H; destruct H as (? & ? & ?)
  end.

Ltac handler_cases :=
  unfold_handlers; unfold_monad; repeat case_match; simplify_eq;
  invert_stripe;
  cbn [fst snd now redis stripe Stripe.log Stripe.intents Stripe.refunds
       Stripe.calls] in *.

Lemma handle_now r o w : now (snd (handle r o w)) = now w.
Proof. destruct r; handler_cases; reflexivity. Qed.

(** After a call to confirm, the intent that was not yet succeeded is
    the only one that changed, and only in its status. *)
Ltac confirmed_intent :=
  match goal with
  | H : exists _ _, _ |- _ => destruct H as (?pi0 & ?st & ?Hid & -> & ?Hs)
  end;
  match goal with
  | Hs : Stripe.intents _ = _ |- _ => rewrite Hs
  end;
  match goal with
  | Hpi : Stripe.intents _ !! ?id = Some ?pi,
    Hid : Stripe.intents _ !! ?id0 = Some ?pi0,
    H : Stripe.intents _ !! ?id0 = Some ?p,
    E : String.eqb (Stripe.pi_status ?p) _ = false |- _ =>
      rewrite Hid in H; injection H as <-; apply String.eqb_neq in E;
      destruct (decide (id0 = id)) as [<- | ?];
      [ rewrite lookup_insert_eq; rewrite Hid in Hpi; injection Hpi as <-;
        eexists; split; [done | cbn; done]
      | rewrite lookup_insert_ne by done; by exists pi ]
  end.

(** An intent keeps its identifier and metadata, and a succeeded intent
    is not touched at all. *)
Lemma handle_intents r o w id pi :
  Stripe.intents (stripe w) !! id = Some pi ->
  exists pi',
    Stripe.intents (stripe (snd (handle r o w))) !! id = Some pi'
    /\ Stripe.pi_id pi' = Stripe.pi_id pi
    /\ Stripe.pi_metadata pi' = Stripe.pi_metadata pi
    /\ (Stripe.pi_status pi = "succeeded" -> pi' = pi).
Proof.
  intros Hpi. destruct r; handler_cases.
  all: try (exists pi; split; [congruence | done]).
  - (* a new intent is filed under a fresh identifier *)
    destruct_and!. exists pi. split; [| done].
    match goal with H : Stripe.intents _ = _ |- _ => rewrite H end.
    rewrite lookup_insert_ne; [done | congruence].
  - confirmed_intent.
  - confirmed_intent.
  - confirmed_intent.
Qed.

Ltac confirmed_intent_after Hpi' :=
  match goal with
  | H : exists _ _, _ |- _ => destruct H as (?pi0 & ?st & ?Hid & -> & ?Hs)
  end;
  match goal with
  | Hs : Stripe.intents _ = _ |- _ => rewrite Hs in Hpi'
  end;
  apply lookup_insert_Some in Hpi' as [[<- <-] | [_ ?]];
  [ left; eexists; split; [eassumption | reflexivity]
  | left; eexists; split; [eassumption | reflexivity] ].

(** An intent found after a handler ran was there before under the same
    identifier, or is new and filed under its own identifier. *)
Lemma handle_intents_after r o w id pi' :
  Stripe.intents (stripe (snd (handle r o w))) !! id = Some pi' ->
  (exists pi, Stripe.intents (stripe w) !! id = Some pi
              /\ Stripe.pi_id pi' = Stripe.pi_id pi)
  \/ Stripe.pi_id pi' = id.
Proof.
  intros Hpi'. destruct r; handler_cases.
  all: try (left; exists pi'; split; [congruence | done]).
  all: destruct_and?.
  - match goal with H : Stripe.intents _ = _ |- _ => rewrite H in Hpi' end.
    apply lookup_insert_Some in Hpi' as [[<- <-] | [_ Hold]]; [by right |].
    left. by exists pi'.
  - confirmed_intent_after Hpi'.
  - confirmed_intent_after Hpi'.
  - confirmed_intent_after Hpi'.
Qed.

Lemma handle_well_formed r o w :
  Stripe.well_formed (stripe w) ->
  Stripe.well_formed (stripe (snd (handle r o w))).
Proof.
  intros Hwf id pi' Hpi'.
  destruct (handle_intents_after r o w id pi' Hpi') as [(pi & Hpi & ->) | ?];
    [by apply Hwf | done].
Qed.

(** The calls a handler adds never ask to confirm a succeeded intent. *)
Lemma handle_confirmations r o w id pi :
  Stripe.intents (stripe w) !! id = Some pi ->
  Stripe.pi_status pi = "succeeded" ->
  confirmations id (snd (handle r o w)) = confirmations id w.
Proof.
  intros Hpi Hst. unfold confirmations.
  destruct r; handler_cases.
  all: repeat match goal with
       | H : Stripe.calls _ = _ |- _ => rewrite H
       end.
  all: rewrite ?List.filter_app, ?length_app.
  all: cbn [List.filter is_confirm_of length]; rewrite ?Nat.add_0_r; try reflexivity.
  all: match goal with
       | H : Stripe.intents _ !! ?id0 = Some ?p,
         E : String.eqb (Stripe.pi_status ?p) _ = false |- _ =>
           apply String.eqb_neq in E;
           assert (id0 <> id) as Hne
             by (intros Heq; rewrite Heq, Hpi in H; injection H as <-; done);
           apply String.eqb_neq in Hne; rewrite Hne
       end.
  all: cbn [length]; rewrite ?Nat.add_0_r; reflexivity.
Qed.

Lemma payment_data_userId u cp t : payment_data u cp t !! "userId" = Some (JStr u).
Proof.
  unfold payment_data.
  destruct (Stripe.md_orderId (Stripe.pi_metadata cp)); reflexivity.
Qed.

Lemma not_owner_false u pi :
  not_owner u pi = false <-> Stripe.md_userId (Stripe.pi_metadata pi) = Some u.
Proof. unfold not_owner. by rewrite negb_false_iff, bool_decide_eq_true. Qed.

Lemma not_owner_true u pi :
  not_owner u pi = true <-> Stripe.md_userId (Stripe.pi_metadata pi) <> Some u.
Proof. unfold not_owner. by rewrite negb_true_iff, bool_decide_eq_false. Qed.

(** The only [payment:] record a handler writes is the one of the intent
    its owner has just confirmed. *)
Lemma handle_cache_consistent r o w :
  Stripe.well_formed (stripe w) ->
  cache_consistent w ->
  cache_consistent (snd (handle r o w)).
Proof.
  intros Hwf Hcc id rec expires u Hrec Hu.
  assert (redis w !! ("payment:" +:+ id) = Some (rec, expires) ->
          exists pi', Stripe.intents (stripe (snd (handle r o w))) !! id = Some pi'
                      /\ Stripe.md_userId (Stripe.pi_metadata pi') = Some u) as Hold.
  { intros Hw. destruct (Hcc _ _ _ _ Hw Hu) as (pi & Hpi & Hown).
    destruct (handle_intents r o w id pi Hpi) as (pi' & Hpi' & _ & Hmd & _).
    exists pi'. split; [done | by rewrite Hmd]. }
  revert Hold Hrec. destruct r; handler_cases; intros Hold Hrec.
  all: try (by apply Hold).
  all: try (rewrite lookup_insert_ne in Hrec
              by first [apply payment_key_not_intent_key
                       | apply payment_key_not_refund_key];
            by apply Hold).
  all: match goal with
       | H : exists _ _, _ |- _ => destruct H as (pi0 & st & Hid & -> & Hs)
       end.
  all: match goal with
       | H : Stripe.intents _ !! _ = Some ?p, E : not_owner _ ?p = false |- _ =>
           rewrite Hid in H; injection H as <-; apply not_owner_false in E;
           rename E into Hown
       end.
  all: cbn [Stripe.with_status Stripe.pi_id Stripe.pi_metadata] in Hrec.
  all: apply lookup_insert_Some in Hrec as [[Hkey Hval] | [_ Hrec]];
       [ apply payment_key_inj in Hkey; injection Hval as <- _;
         rewrite payment_data_userId in Hu; injection Hu as <-;
         rewrite <- Hkey, (Hwf _ _ Hid), Hs, lookup_insert_eq;
         eexists; split; [reflexivity | exact Hown]
       | rewrite ?lookup_insert_ne in Hrec by apply payment_key_not_intent_key;
         by apply Hold ].
Qed.

(** Every world the service reaches keeps intents filed under their
    identifiers and the [payment:] records with their owners. *)
Lemma reachable_invariant w :
  reachable w -> Stripe.well_formed (stripe w) /\ cache_consistent w.
Proof.
  induction 1 as [t s Hwf | w r o _ [Hwf Hcc] | w d _ _ [Hwf Hcc]].
  - split; [done |]. intros id rec expires u Hrec. cbn in Hrec.
    by rewrite lookup_empty in Hrec.
  - split; [by apply handle_well_formed | by apply handle_cache_consistent].
  - done.
Qed.

(** ** Ownership and eligibility guards *)

(** Closes the paths of a handler that the hypotheses rule out. *)
Ltac absurd_path :=
  exfalso;
  repeat match goal with
  | H : not_owner _ _ = false |- _ => apply not_owner_false in H
  | H : not_owner _ _ = true |- _ => apply not_owner_true in H
  | H : String.eqb _ _ = true |- _ => apply String.eqb_eq in H
  | H : String.eqb _ _ = false |- _ => apply String.eqb_neq in H
  | H : negb _ = true |- _ => apply negb_true_iff in H
  | H : negb _ = false |- _ => apply negb_false_iff in H
  end;
  first [by simplify_eq | simplify_eq; congruence].

Lemma confirm_denied u b o w pi :
  validate_confirm b = [] ->
  Stripe.intents (stripe w) !! tmpl (confirm_paymentIntentId b) = Some pi ->
  Stripe.md_userId (Stripe.pi_metadata pi) <> Some u ->
  confirm_payment u b o w
  = (status_json 403 (BError "Access denied"),
     looked_up (tmpl (confirm_paymentIntentId b)) w).
Proof.
  intros Hvalid Hpi Hown. handler_cases; try reflexivity; absurd_path.
Qed.

Lemma refund_denied u b o w pi :
  validate_refund b = [] ->
  Stripe.intents (stripe w) !! tmpl (refund_paymentIntentId b) = Some pi ->
  Stripe.md_userId (Stripe.pi_metadata pi) <> Some u ->
  refund u b o w
  = (status_json 403 (BError "Access denied"),
     looked_up (tmpl (refund_paymentIntentId b)) w).
Proof.
  intros Hvalid Hpi Hown. handler_cases; try reflexivity; absurd_path.
Qed.

Lemma status_denied u id o w pi :
  cache_consistent w ->
  Stripe.intents (stripe w) !! id = Some pi ->
  Stripe.md_userId (Stripe.pi_metadata pi) <> Some u ->
  payment_status u id o w
  = (status_json 403 (BError "Access denied"), looked_up id w).
Proof.
  intros Hcc Hpi Hown. handler_cases; try reflexivity; try absurd_path.
  exfalso.
  (* a cached record of the requester would name an intent of theirs *)
  match goal with H : bool_decide _ = true |- _ => apply bool_decide_eq_true in H; rename H into Hu end.
  match goal with H : lookup_live _ _ _ = Some _ |- _ => rename H into Hlive end.
  unfold lookup_live in Hlive.
  destruct (redis w0 !! ("payment:" +:+ id)) as [[rec expires]|] eqn:Hrec; [| done].
  destruct (now w0 <? expires); [| done]. injection Hlive as ->.
  destruct (Hcc id g expires u Hrec Hu) as (pi' & Hpi' & Hown').
  congruence.
Qed.

(** C9, as amended. For confirm-payment, payment-status and refund, in
    every world the service reaches: when the request passes its input
    validation and the authenticated user is not the one recorded in the
    metadata of the payment intent it names, the handler answers 403
    "Access denied"; it has only looked the intent up, so nothing was
    mutated, and the answer carries no payment data. *)
Theorem foreign_payment_access_denied (w : World) (r : Request)
    (o : Stripe.Oracle) (id : string) (pi : Stripe.PaymentIntent) :
  reachable w ->
  target r = Some id ->
  validation_errors r = [] ->
  Stripe.intents (stripe w) !! id = Some pi ->
  Stripe.md_userId (Stripe.pi_metadata pi) <> Some (requester r) ->
  access_denied r o w id.
Proof.
  intros Hreach Htarget Hvalid Hpi Hown. unfold access_denied.
  apply reachable_invariant in Hreach as [_ Hcc].
  destruct r as [u b | u b | u id' | u b]; cbn in Htarget, Hvalid, Hown |- *;
    simplify_eq.
  - by eapply confirm_denied.
  - by eapply status_denied.
  - by eapply refund_denied.
Qed.

Lemma stripe0_well_formed : Stripe.well_formed stripe0.
Proof. intros id pi Hpi. cbn in Hpi. by rewrite lookup_empty in Hpi. Qed.

Lemma world1_reachable : reachable world1.
Proof.
  apply (reach_handle world0 (CreatePaymentIntent "alice" order1) answers).
  apply reach_start, stripe0_well_formed.
Qed.

Lemma world2_reachable : reachable world2.
Proof.
  apply (reach_handle world1 (ConfirmPayment "alice" confirm1) answers).
  apply world1_reachable.
Qed.

Lemma world1_intent :
  Stripe.intents (stripe world1) !! "pi_1" = Some (pi_1 "requires_payment_method").
Proof. vm_compute. reflexivity. Qed.

Lemma world2_intent :
  Stripe.intents (stripe world2) !! "pi_1" = Some (pi_1 "succeeded").
Proof. vm_compute. reflexivity. Qed.

Lemma foreign_payment_access_denied_witness :
  (exists rec, lookup_live (now world2) (redis world2) "payment:pi_1" = Some rec)
  /\ access_denied (PaymentStatus "mallory" "pi_1") answers world2 "pi_1".
Proof.
  split; [eexists; vm_compute; reflexivity |].
  apply (foreign_payment_access_denied world2 (PaymentStatus "mallory" "pi_1")
           answers "pi_1" (pi_1 "succeeded")).
  - apply world2_reachable.
  - reflexivity.
  - reflexivity.
  - apply world2_intent.
  - cbn. discriminate.
Defined.

(** C9 as stated fails: mallory asks for a refund of alice's payment
    with an amount of 0; the validators answer 400 before the ownership
    check is reached, so the answer is not 403. *)
Lemma foreign_refund_with_invalid_amount_not_403 :
  Stripe.intents (stripe world2) !! "pi_1" = Some (pi_1 "succeeded")
  /\ Stripe.md_userId (Stripe.pi_metadata (pi_1 "succeeded")) <> Some "mallory"
  /\ handle (RefundPayment "mallory" refund1_zero) answers world2
     = (status_json 400 (BErrors ["Amount must be positive"]), world2)
  /\ ~ access_denied (RefundPayment "mallory" refund1_zero) answers world2 "pi_1".
Proof.
  assert (handle (RefundPayment "mallory" refund1_zero) answers world2
          = (status_json 400 (BErrors ["Amount must be positive"]), world2)) as Hrun.
  { apply (invalid_refund_rejected "mallory" refund1_zero answers world2).
    vm_compute. discriminate. }
  split; [apply world2_intent |]. split; [cbn; discriminate |].
  split; [exact Hrun |].
  unfold access_denied. rewrite Hrun. intros [= ?].
Qed.

(** ** Refund eligibility *)

Lemma refund_not_eligible u b o w pi :
  validate_refund b = [] ->
  Stripe.intents (stripe w) !! tmpl (refund_paymentIntentId b) = Some pi ->
  Stripe.md_userId (Stripe.pi_metadata pi) = Some u ->
  Stripe.pi_status pi <> "succeeded" ->
  refund_refused u b o w.
Proof.
  intros Hvalid Hpi Hown Hst. unfold refund_refused.
  handler_cases; try reflexivity; absurd_path.
Qed.

Lemma refund_unsucceeded_frame u b o w pi :
  Stripe.intents (stripe w) !! tmpl (refund_paymentIntentId b) = Some pi ->
  Stripe.pi_status pi <> "succeeded" ->
  unchanged w (snd (refund u b o w))
  /\ (sent w (snd (refund u b o w)) []
      \/ sent w (snd (refund u b o w))
           [Stripe.CallRetrieve (tmpl (refund_paymentIntentId b))]).
Proof.
  intros Hpi Hst. unfold unchanged, sent.
  handler_cases; try absurd_path.
  all: split; [done |]; rewrite ?app_nil_r; auto.
Qed.

(** C8, as amended. For every refund request naming a payment intent
    whose status is not 'succeeded': whoever sends it, no refund is
    created at the payment collaborator and no record is written (clock,
    cache, intents and refunds are unchanged; at most the intent was
    looked up); and when the request passes input validation and comes
    from the owner of the payment, the answer is 400 'Payment is not
    eligible for refund'. *)
Theorem refund_of_unsucceeded_payment_refused (u : string) (b : RefundBody)
    (o : Stripe.Oracle) (w : World) (pi : Stripe.PaymentIntent) :
  Stripe.intents (stripe w) !! tmpl (refund_paymentIntentId b) = Some pi ->
  Stripe.pi_status pi <> "succeeded" ->
  unchanged w (snd (refund u b o w))
  /\ (sent w (snd (refund u b o w)) []
      \/ sent w (snd (refund u b o w))
           [Stripe.CallRetrieve (tmpl (refund_paymentIntentId b))])
  /\ (validate_refund b = [] ->
      Stripe.md_userId (Stripe.pi_metadata pi) = Some u ->
      refund_refused u b o w).
Proof.
  intros Hpi Hst.
  destruct (refund_unsucceeded_frame u b o w pi Hpi Hst) as [Hsame Hsent].
  split; [done |]. split; [done |].
  intros Hvalid Hown. by eapply refund_not_eligible.
Qed.

Lemma refund_of_unsucceeded_payment_refused_witness :
  refund_refused "alice" refund1 answers world1.
Proof.
  apply (refund_of_unsucceeded_payment_refused "alice" refund1 answers world1
           (pi_1 "requires_payment_method")).
  - apply world1_intent.
  - cbn. discriminate.
  - reflexivity.
  - reflexivity.
Defined.

(** C8 as stated fails: mallory asks for a refund of alice's payment,
    which has not succeeded; the answer is 403 "Access denied", not 400
    "Payment is not eligible for refund". *)
Lemma refund_by_stranger_is_403_not_400 :
  Stripe.intents (stripe world1) !! tmpl (refund_paymentIntentId refund1)
    = Some (pi_1 "requires_payment_method")
  /\ Stripe.pi_status (pi_1 "requires_payment_method") <> "succeeded"
  /\ fst (refund "mallory" refund1 answers world1)
     = status_json 403 (BError "Access denied")
  /\ ~ refund_refused "mallory" refund1 answers world1.
Proof.
  assert (fst (refund "mallory" refund1 answers world1)
          = status_json 403 (BError "Access denied")) as Hrun
    by (vm_compute; reflexivity).
  split; [apply world1_intent |]. split; [cbn; discriminate |].
  split; [exact Hrun |].
  unfold refund_refused. intros Heq. rewrite Heq in Hrun. cbn in Hrun.
  discriminate.
Qed.

(** ** Confirmation happens once *)

Lemma confirm_already_succeeded u b o w pi :
  validate_confirm b = [] ->
  Stripe.intents (stripe w) !! tmpl (confirm_paymentIntentId b) = Some pi ->
  Stripe.md_userId (Stripe.pi_metadata pi) = Some u ->
  Stripe.pi_status pi = "succeeded" ->
  confirm_payment u b o w
  = (json (BConfirm "succeeded" "Payment already confirmed"),
     looked_up (tmpl (confirm_paymentIntentId b)) w).
Proof.
  intros Hvalid Hpi Hown Hst. handler_cases; try absurd_path.
  match goal with
  | H : Stripe.intents _ !! _ = Some ?p |- context [Stripe.pi_status ?p] =>
      rewrite Hpi in H; injection H as <-
  end.
  by rewrite Hst.
Qed.

Lemma perform_succeeded a w id pi :
  Stripe.intents (stripe w) !! id = Some pi ->
  Stripe.pi_status pi = "succeeded" ->
  Stripe.intents (stripe (perform a w)) !! id = Some pi
  /\ confirmations id (perform a w) = confirmations id w.
Proof.
  intros Hpi Hst. destruct a as [r o | d]; cbn [perform].
  - split; [| by eapply handle_confirmations].
    destruct (handle_intents r o w id pi Hpi) as (pi' & Hpi' & _ & _ & Hsame).
    by rewrite Hpi', (Hsame Hst).
  - done.
Qed.

Lemma perform_all_succeeded actions w id pi :
  Stripe.intents (stripe w) !! id = Some pi ->
  Stripe.pi_status pi = "succeeded" ->
  Stripe.intents (stripe (perform_all actions w)) !! id = Some pi
  /\ confirmations id (perform_all actions w) = confirmations id w.
Proof.
  revert w. induction actions as [| a actions IH]; intros w Hpi Hst; [done |].
  cbn [perform_all fold_left].
  destruct (perform_succeeded a w id pi Hpi Hst) as [Hpi' Hcount].
  destruct (IH (perform a w) Hpi' Hst) as [Hpi'' Hcount'].
  split; [exact Hpi'' |].
  etrans; [exact Hcount' | exact Hcount].
Qed.

(** C3, as amended. Once a payment intent has status 'succeeded', the
    payment collaborator is never asked to confirm it again: whatever
    requests the service handles afterwards, by whomever and however
    often, the number of confirm calls for that intent stays the same.
    A confirm-payment request for it that passes input validation and
    comes from the owner of the payment is answered with success,
    'Payment already confirmed' and the existing status. *)
Theorem succeeded_payment_confirmed_once (w : World) (id : string)
    (pi : Stripe.PaymentIntent) :
  Stripe.intents (stripe w) !! id = Some pi ->
  Stripe.pi_status pi = "succeeded" ->
  (forall actions, confirmations id (perform_all actions w) = confirmations id w)
  /\ (forall u b o,
        tmpl (confirm_paymentIntentId b) = id ->
        validate_confirm b = [] ->
        Stripe.md_userId (Stripe.pi_metadata pi) = Some u ->
        confirm_payment u b o w
        = (json (BConfirm "succeeded" "Payment already confirmed"),
           looked_up id w)).
Proof.
  intros Hpi Hst. split.
  - intros actions. by eapply perform_all_succeeded.
  - intros u b o <- Hvalid Hown. by eapply confirm_already_succeeded.
Qed.

Lemma succeeded_payment_confirmed_once_witness :
  confirmations "pi_1" world2 = 1%nat
  /\ confirmations "pi_1"
       (perform_all [Handle (ConfirmPayment "alice" confirm1) answers;
                     Wait 60;
                     Handle (ConfirmPayment "alice" confirm1) answers;
                     Handle (ConfirmPayment "mallory" confirm1) answers] world2)
     = confirmations "pi_1" world2
  /\ confirm_payment "alice" confirm1 answers world2
     = (json (BConfirm "succeeded" "Payment already confirmed"),
        looked_up "pi_1" world2).
Proof.
  split; [vm_compute; reflexivity |].
  destruct (succeeded_payment_confirmed_once world2 "pi_1" (pi_1 "succeeded")
              world2_intent eq_refl) as [Hcount Hanswer].
  split; [apply Hcount |].
  apply (Hanswer "alice" confirm1 answers); reflexivity.
Defined.

(** C3 as stated fails twice. mallory sends confirm-payment for alice's
    payment, which has succeeded; the answer is 403 "Access denied", not
    success with the existing status. And confirmation is not requested
    at most once per payment: while the collaborator answers
    'processing', every confirm-payment retry of alice asks it to
    confirm again. *)
Lemma confirm_by_stranger_is_403_and_processing_is_confirmed_again :
  Stripe.intents (stripe world2) !! tmpl (confirm_paymentIntentId confirm1)
    = Some (pi_1 "succeeded")
  /\ fst (confirm_payment "mallory" confirm1 answers world2)
     = status_json 403 (BError "Access denied")
  /\ fst (confirm_payment "mallory" confirm1 answers world2)
     <> json (BConfirm "succeeded" "Payment already confirmed")
  /\ fst (confirm_payment "alice" confirm1 answers_processing world1)
     = json (BConfirm "processing" "Payment processing")
  /\ confirmations "pi_1"
       (perform_all [Handle (ConfirmPayment "alice" confirm1) answers_processing;
                     Handle (ConfirmPayment "alice" confirm1) answers_processing]
          world1) = 2%nat.
Proof.
  assert (fst (confirm_payment "mallory" confirm1 answers world2)
          = status_json 403 (BError "Access denied")) as Hrun
    by (vm_compute; reflexivity).
  split; [apply world2_intent |]. split; [exact Hrun |].
  split; [rewrite Hrun; discriminate |].
  split; vm_compute; reflexivity.
Qed.

(** ** Retention of the stored records *)

Lemma lookup_live_insert t (m : gmap string (jobj * Z)) k k' v e :
  lookup_live t (<[k := (v, e)]> m) k'
  = if decide (k = k') then (if t <? e then Some v else None)
    else lookup_live t m k'.
Proof.
  unfold lookup_live. rewrite lookup_insert. by destruct (decide (k = k')).
Qed.

Lemma lookup_live_Some t (m : gmap string (jobj * Z)) k v :
  lookup_live t m k = Some v <-> exists e, m !! k = Some (v, e) /\ t < e.
Proof.
  unfold lookup_live. destruct (m !! k) as [[v' e]|].
  - destruct (Z.ltb_spec t e); split.
    + intros [= <-]. by exists e.
    + by intros (e' & [= <- <-] & _).
    + done.
    + intros (e' & [= <- <-] & ?). lia.
  - split; [done | by intros (e & ? & _)].
Qed.

Lemma intent_data_fields u b pi t :
  intent_data u b pi t !! "paymentIntentId" = Some (JStr (Stripe.pi_id pi))
  /\ intent_data u b pi t !! "clientSecret" = Some (JStr (Stripe.pi_client_secret pi))
  /\ intent_data u b pi t !! "status" = Some (JStr (Stripe.pi_status pi)).
Proof.
  unfold intent_data.
  destruct (amount b), (currency b), (orderId b); repeat split; reflexivity.
Qed.

Lemma mark_confirmed_fields g cp t :
  mark_confirmed g cp t !! "paymentIntentId" = g !! "paymentIntentId"
  /\ mark_confirmed g cp t !! "clientSecret" = g !! "clientSecret"
  /\ mark_confirmed g cp t !! "status" = Some (JStr (Stripe.pi_status cp)).
Proof.
  unfold mark_confirmed. repeat split.
  - by rewrite !lookup_insert_ne.
  - by rewrite !lookup_insert_ne.
  - rewrite lookup_insert_ne by done. by rewrite lookup_insert_eq.
Qed.

(** The first execution for an order: what is answered and stored. *)
Lemma create_first u b o w :
  validate_create b = [] ->
  lookup_live (now w) (redis w) (intent_key b) = None ->
  code (fst (create_payment_intent u b o w)) = 200 ->
  exists pi,
    fst (create_payment_intent u b o w)
    = json (BIntent (Some (JStr (Stripe.pi_id pi)))
              (Some (JStr (Stripe.pi_client_secret pi)))
              (Some (JStr (Stripe.pi_status pi))))
    /\ now (snd (create_payment_intent u b o w)) = now w
    /\ redis (snd (create_payment_intent u b o w))
       = <[intent_key b := (intent_data u b pi (now w), now w + 3600)]> (redis w).
Proof.
  intros Hvalid Hfresh. unfold intent_key in *. handler_cases; try done.
  intros _. eexists. repeat split.
Qed.

Lemma record_retained u b o w :
  validate_create b = [] ->
  lookup_live (now w) (redis w) (intent_key b) = None ->
  code (fst (create_payment_intent u b o w)) = 200 ->
  forall d, 0 <= d ->
    (d < 3600 ->
       forall u' o',
         create_payment_intent u' b o' (elapse d (snd (create_payment_intent u b o w)))
         = (fst (create_payment_intent u b o w),
            elapse d (snd (create_payment_intent u b o w))))
    /\ (3600 <= d ->
          lookup_live (now (elapse d (snd (create_payment_intent u b o w))))
            (redis (elapse d (snd (create_payment_intent u b o w))))
            (intent_key b) = None).
Proof.
  intros Hvalid Hfresh Hok d Hd.
  destruct (create_first u b o w Hvalid Hfresh Hok) as (pi & Hresp & Hnow & Hredis).
  destruct (intent_data_fields u b pi (now w)) as (Hid & Hsecret & Hstatus).
  split.
  - intros Hlt u' o'. rewrite Hresp, <- Hid, <- Hsecret, <- Hstatus.
    apply create_cached; [done |].
    cbn [elapse now redis]. rewrite Hnow, Hredis, lookup_live_insert.
    rewrite decide_True by done.
    destruct (Z.ltb_spec (now w + d) (now w + 3600)); [done | lia].
  - intros Hge. cbn [elapse now redis]. rewrite Hnow, Hredis, lookup_live_insert.
    rewrite decide_True by done.
    destruct (Z.ltb_spec (now w + d) (now w + 3600)); [lia | done].
Qed.

(** A live [payment_intent:] record survives every handler; only a
    confirmation that succeeded rewrites it, and then only its status
    and dates. *)
Lemma record_stable r o w orderId rec :
  lookup_live (now w) (redis w) ("payment_intent:" +:+ orderId) = Some rec ->
  exists rec',
    lookup_live (now (snd (handle r o w))) (redis (snd (handle r o w)))
      ("payment_intent:" +:+ orderId) = Some rec'
    /\ rec' !! "paymentIntentId" = rec !! "paymentIntentId"
    /\ rec' !! "clientSecret" = rec !! "clientSecret"
    /\ (rec' = rec
        \/ (exists u b, r = ConfirmPayment u b)
           /\ rec' !! "status" = Some (JStr "succeeded")).
Proof.
  intros Hrec. destruct r; handler_cases.
  all: try (exists rec; repeat split; auto; fail).
  - (* a first execution writes under another order's key *)
    exists rec. rewrite lookup_live_insert, decide_False; [by auto |].
    intros Hkey. rewrite Hkey in *. congruence.
  - (* a confirmation that found a record for its order *)
    rewrite lookup_live_insert, decide_False by (symmetry; apply payment_key_not_intent_key).
    rewrite lookup_live_insert.
    destruct (decide _) as [Hkey | _]; [| exists rec; by auto].
    rewrite Hkey in *.
    match goal with H : lookup_live _ _ _ = Some ?g |- _ =>
      rewrite Hrec in H; injection H as <- end.
    destruct (Z.ltb_spec (now w1) (now w1 + 3600)); [| lia].
    destruct (mark_confirmed_fields rec a1 (now w1)) as (Hid & Hsecret & Hstatus).
    eexists. split; [reflexivity |]. split; [done |]. split; [done |].
    right. split; [by eauto |].
    match goal with H : String.eqb _ _ = true |- _ => apply String.eqb_eq in H; by rewrite Hstatus, H end.
  - (* a confirmation that found none *)
    exists rec. rewrite lookup_live_insert, decide_False; [by auto |].
    symmetry. apply payment_key_not_intent_key.
  - (* a refund *)
    exists rec. rewrite lookup_live_insert, decide_False; [by auto |].
    apply intent_key_not_refund_key.
Qed.

(** A confirmation that succeeded leaves a [payment:] record that lives
    for 86400 seconds. *)
Lemma payment_record_retained u b o w :
  fst (confirm_payment u b o w)
  = json (BConfirm "succeeded" "Payment confirmed successfully") ->
  exists cp rec,
    Stripe.intents (stripe (snd (confirm_payment u b o w)))
      !! tmpl (confirm_paymentIntentId b) = Some cp
    /\ forall d, 0 <= d ->
         lookup_live (now (snd (confirm_payment u b o w)) + d)
           (redis (snd (confirm_payment u b o w)))
           ("payment:" +:+ Stripe.pi_id cp)
         = if d <? 86400 then Some rec else None.
Proof.
  handler_cases; intros Hresp; try discriminate.
  all: match goal with
       | H : exists _ _, _ |- _ => destruct H as (pi0 & st & Hid & -> & Hs)
       end.
  all: eexists _, _; split; [by rewrite Hs, lookup_insert_eq |].
  all: intros d Hd; rewrite lookup_live_insert, decide_True by done.
  all: match goal with
       | |- context [?t + ?d <? ?t + 86400] =>
           destruct (Z.ltb_spec (t + d) (t + 86400)), (Z.ltb_spec d 86400);
           first [reflexivity | lia]
       end.
Qed.

(** C2, as amended. The record create-payment-intent writes at its
    first execution for an order is retained for 3600 seconds: with
    nothing else handled in between, a retry for the same order less
    than 3600 seconds later, by any caller and whatever the collaborator
    would answer, returns the original answer and changes nothing, and
    from 3600 seconds on the record has expired.
    While the record is live no handler changes its paymentIntentId or
    its clientSecret, and the only handler that rewrites it is a
    confirm-payment that succeeds, which sets its status to 'succeeded'.
    The record a successful confirm-payment writes under [payment:] is
    retained for 86400 seconds. *)
Theorem stored_records_retention :
  (forall u b o w,
     validate_create b = [] ->
     lookup_live (now w) (redis w) (intent_key b) = None ->
     code (fst (create_payment_intent u b o w)) = 200 ->
     forall d, 0 <= d ->
       (d < 3600 ->
          forall u' o',
            create_payment_intent u' b o' (elapse d (snd (create_payment_intent u b o w)))
            = (fst (create_payment_intent u b o w),
               elapse d (snd (create_payment_intent u b o w))))
       /\ (3600 <= d ->
             lookup_live (now (elapse d (snd (create_payment_intent u b o w))))
               (redis (elapse d (snd (create_payment_intent u b o w))))
               (intent_key b) = None))
  /\ (forall r o w orderId rec,
        lookup_live (now w) (redis w) ("payment_intent:" +:+ orderId) = Some rec ->
        exists rec',
          lookup_live (now (snd (handle r o w))) (redis (snd (handle r o w)))
            ("payment_intent:" +:+ orderId) = Some rec'
          /\ rec' !! "paymentIntentId" = rec !! "paymentIntentId"
          /\ rec' !! "clientSecret" = rec !! "clientSecret"
          /\ (rec' = rec
              \/ (exists u b, r = ConfirmPayment u b)
                 /\ rec' !! "status" = Some (JStr "succeeded")))
  /\ (forall u b o w,
        fst (confirm_payment u b o w)
        = json (BConfirm "succeeded" "Payment confirmed successfully") ->
        exists cp rec,
          Stripe.intents (stripe (snd (confirm_payment u b o w)))
            !! tmpl (confirm_paymentIntentId b) = Some cp
          /\ forall d, 0 <= d ->
               lookup_live (now (snd (confirm_payment u b o w)) + d)
                 (redis (snd (confirm_payment u b o w)))
                 ("payment:" +:+ Stripe.pi_id cp)
               = if d <? 86400 then Some rec else None).
Proof.
  split; [| split].
  - intros u b o w. apply record_retained.
  - intros r o w orderId rec. apply record_stable.
  - intros u b o w. apply payment_record_retained.
Qed.

Lemma stored_records_retention_witness :
  create_payment_intent "mallory" order1 answers2 (elapse 3599 world1)
  = (json (BIntent (Some (JStr "pi_1")) (Some (JStr "secret_1"))
             (Some (JStr "requires_payment_method"))),
     elapse 3599 world1)
  /\ lookup_live (now (elapse 3600 world1)) (redis (elapse 3600 world1))
       (intent_key order1) = None.
Proof.
  destruct stored_records_retention as (Hretained & _ & _).
  assert (validate_create order1 = []) as Hvalid by reflexivity.
  assert (lookup_live (now world0) (redis world0) (intent_key order1) = None)
    as Hfresh by reflexivity.
  assert (code (fst (create_payment_intent "alice" order1 answers world0)) = 200)
    as Hok by (vm_compute; reflexivity).
  split.
  - destruct (Hretained "alice" order1 answers world0 Hvalid Hfresh Hok 3599)
      as [Hreplay _]; [lia |].
    apply (Hreplay ltac:(lia) "mallory" answers2).
  - destruct (Hretained "alice" order1 answers world0 Hvalid Hfresh Hok 3600)
      as [_ Hexpired]; [lia |].
    apply Hexpired. lia.
Defined.

(** C2 as stated fails twice on the record of order-1. One hour after
    the first execution, long before 24 hours, the record has expired
    and a retry is executed again: the collaborator creates a second
    intent. And before it expires the record is not immutable:
    confirm-payment rewrites it, so that a retry returns the status
    'succeeded' where the original answer had 'requires_payment_method'. *)
Lemma intent_record_expires_after_an_hour_and_is_rewritten :
  fst (create_payment_intent "alice" order1 answers world0)
  = json (BIntent (Some (JStr "pi_1")) (Some (JStr "secret_1"))
            (Some (JStr "requires_payment_method")))
  /\ lookup_live (now (elapse 3600 world1)) (redis (elapse 3600 world1))
       (intent_key order1) = None
  /\ fst (create_payment_intent "alice" order1 answers2 (elapse 3600 world1))
     = json (BIntent (Some (JStr "pi_2")) (Some (JStr "secret_2"))
               (Some (JStr "requires_payment_method")))
  /\ Stripe.calls (stripe (snd (create_payment_intent "alice" order1 answers2
                                  (elapse 3600 world1))))
     = [Stripe.CallCreate (create_params "alice" order1);
        Stripe.CallCreate (create_params "alice" order1)]
  /\ fst (create_payment_intent "alice" order1 answers world2)
     = json (BIntent (Some (JStr "pi_1")) (Some (JStr "secret_1"))
               (Some (JStr "succeeded"))).
Proof. repeat split; vm_compute; reflexivity. Qed.

(** * Properties of the order state machine and of the webhook ingress *)

(** ** transition *)

Lemma transition_conflict os id o ev v :
  os !! id = Some o -> version o <> v ->
  transition os id ev v = (inl ConflictError, os).
Proof.
  intros Ho Hv. unfold transition. rewrite Ho.
  destruct (Z.eqb_spec (version o) v); [done | reflexivity].
Qed.

Lemma transition_illegal os id o ev :
  os !! id = Some o -> next (status o) ev = None ->
  transition os id ev (version o) = (inl IllegalTransitionError, os).
Proof.
  intros Ho Hnext. unfold transition. by rewrite Ho, Z.eqb_refl, Hnext.
Qed.

Lemma transition_success os id o ev s' :
  os !! id = Some o -> next (status o) ev = Some s' ->
  transition os id ev (version o)
  = (inr ({| order_id := order_id o; owner := owner o; total := total o;
             status := s'; version := version o + 1 |},
          {| de_order := id; de_from := status o; de_to := s';
             de_version := version o + 1 |}),
     <[id := {| order_id := order_id o; owner := owner o; total := total o;
                status := s'; version := version o + 1 |}]> os).
Proof.
  intros Ho Hnext. unfold transition. by rewrite Ho, Z.eqb_refl, Hnext.
Qed.


(** Whatever function decides transitions, it answers a call with one
    result, so it cannot raise ConflictError exactly on stale versions
    and IllegalTransitionError exactly on invalid events: a call with
    both defects would need both answers. *)
Fact one_error_per_call
    (f : Order -> Event -> Z -> Error + Order * DomainEvent) :
  ~ (forall o ev v,
       (f o ev v = inl ConflictError <-> version o <> v)
       /\ (f o ev v = inl IllegalTransitionError <-> next (status o) ev = None)).
Proof.
  intros Hf.
  destruct (Hf order1_completed Reserve 0) as [[_ Hconflict] [_ Hillegal]].
  rewrite Hconflict in Hillegal by (cbn; lia).
  by specialize (Hillegal eq_refl).
Qed.

(** C7, as amended. For every call transition(orderId, event,
    expectedVersion) on a stored order: it fails with ConflictError
    exactly when the persisted version differs from expectedVersion; it
    fails with IllegalTransitionError exactly when the versions agree
    and the event is not valid from the current state; a failed call
    leaves the store as it was; and when the versions agree and the
    event is valid it persists the new state, increments the version by
    one, and returns the updated order and a domain event. *)
Theorem transition_contract (os : gmap string Order) (id : string) (o : Order)
    (ev : Event) (v : Z) :
  os !! id = Some o ->
  (fst (transition os id ev v) = inl ConflictError <-> version o <> v)
  /\ (fst (transition os id ev v) = inl IllegalTransitionError
      <-> version o = v /\ next (status o) ev = None)
  /\ (forall err, fst (transition os id ev v) = inl err ->
        snd (transition os id ev v) = os)
  /\ (forall s', version o = v -> next (status o) ev = Some s' ->
        exists o',
          transition os id ev v
          = (inr (o', {| de_order := id; de_from := status o; de_to := s';
                         de_version := version o + 1 |}),
             <[id := o']> os)
          /\ status o' = s'
          /\ version o' = version o + 1
          /\ order_id o' = order_id o /\ owner o' = owner o /\ total o' = total o).
Proof.
  intros Ho.
  destruct (decide (version o = v)) as [<- | Hv].
  - destruct (next (status o) ev) as [s' |] eqn:Hnext.
    + rewrite (transition_success os id o ev s' Ho Hnext). cbn [fst snd].
      split; [split; [done | intros H; by destruct H] |].
      split; [split; [done | by intros [_ ?]] |].
      split; [done |].
      intros s'' _ [= <-]. eexists. split; [reflexivity |]. done.
    + rewrite (transition_illegal os id o ev Ho Hnext). cbn [fst snd].
      split; [split; [done | intros H; by destruct H] |].
      split; [done |]. split; [done |]. done.
  - rewrite (transition_conflict os id o ev v Ho Hv). cbn [fst snd].
    split; [done |].
    split; [split; [done | by intros [? _]] |].
    split; [done |]. intros s' Hv'. done.
Qed.

Lemma transition_contract_witness :
  exists o',
    transition {[ "order-1" := order1_authorizing ]} "order-1" Authorize 2
    = (inr (o', {| de_order := "order-1"; de_from := AUTHORIZING;
                   de_to := AUTHORIZED; de_version := 3 |}),
       <["order-1" := o']> {[ "order-1" := order1_authorizing ]})
    /\ status o' = AUTHORIZED /\ version o' = 3.
Proof.
  destruct (transition_contract {[ "order-1" := order1_authorizing ]} "order-1"
              order1_authorizing Authorize 2 (lookup_singleton_eq _ _))
    as (_ & _ & _ & Hsuccess).
  destruct (Hsuccess AUTHORIZED eq_refl eq_refl) as (o' & Hrun & Hstatus & Hversion & _).
  exists o'. by repeat split.
Defined.

(** C7 as stated fails: a call with a stale version and an event that is
    not valid from the current state fails with ConflictError, so
    IllegalTransitionError is not raised exactly when the event is
    invalid. *)
Lemma stale_and_illegal_transition_is_conflict :
  next (status order1_completed) Reserve = None
  /\ fst (transition {[ "order-1" := order1_completed ]} "order-1" Reserve 3)
     = inl ConflictError
  /\ ~ (fst (transition {[ "order-1" := order1_completed ]} "order-1" Reserve 3)
        = inl IllegalTransitionError
        <-> next (status order1_completed) Reserve = None).
Proof.
  assert (fst (transition {[ "order-1" := order1_completed ]} "order-1" Reserve 3)
          = inl ConflictError) as Hrun.
  { rewrite (transition_conflict _ "order-1" order1_completed); [done | | done].
    apply lookup_singleton_eq. }
  split; [done |]. split; [exact Hrun |].
  rewrite Hrun. intros [_ Hillegal]. by specialize (Hillegal eq_refl).
Qed.

(** ** handleEvent *)

Section Webhooks.

Variable retention : Z.

Lemma same_state_refl st : same_state st st.
Proof. done. Qed.

(** An event of type [pending] maps to no transition. *)
Lemma pending_event_same_state e st :
  eventType e = pending -> same_state st (snd (handleEvent retention e st)).
Proof.
  intros Hty. unfold handleEvent.
  destruct (attempts st !! externalReference e) as [a|] eqn:Ha; [| done].
  destruct (completed st _); [done |].
  destruct (attempt_terminal (attempt_status a)); [done |].
  rewrite Hty. cbn [path drive settled].
  unfold same_state, commit. cbn [snd orders attempts published].
  split; [done |]. split; [| by rewrite app_nil_r].
  apply insert_id. rewrite Ha. by destruct a.
Qed.

(** An attempt that is final answers every event with a no-op. *)
Lemma terminal_attempt_noop e st a :
  attempts st !! externalReference e = Some a ->
  attempt_terminal (attempt_status a) = true ->
  handleEvent retention e st = (NoOp, st).
Proof.
  intros Ha Hterm. unfold handleEvent. rewrite Ha, Hterm.
  by destruct (completed st _).
Qed.

(** An applied [authorized] or [declined] event leaves its attempt final. *)
Lemma applied_event_settles e st :
  fst (handleEvent retention e st) = Applied ->
  eventType e <> pending ->
  exists a,
    attempts (snd (handleEvent retention e st)) !! externalReference e = Some a
    /\ attempt_terminal (attempt_status a) = true.
Proof.
  unfold handleEvent.
  destruct (attempts st !! externalReference e) as [a|]; [| done].
  destruct (completed st _); [done |].
  destruct (attempt_terminal (attempt_status a)); [done |].
  destruct (drive _ _ _ _) as [err | [os evs]]; [done |].
  intros _ Hty. eexists. cbn [snd commit attempts].
  split; [apply lookup_insert_eq |].
  cbn [attempt_status]. by destruct (eventType e).
Qed.

(** A final attempt stays as it is, whatever is delivered later. *)
Lemma terminal_attempt_kept s st ref a :
  attempts st !! ref = Some a ->
  attempt_terminal (attempt_status a) = true ->
  attempts (step retention s st) !! ref = Some a.
Proof.
  intros Ha Hterm. destruct s as [e | d]; cbn [step attempts]; [| done].
  destruct (decide (externalReference e = ref)) as [<- | Hne].
  - by rewrite (terminal_attempt_noop e st a Ha Hterm).
  - unfold handleEvent.
    destruct (attempts st !! externalReference e) as [a'|]; [| done].
    destruct (completed st _); [done |].
    destruct (attempt_terminal (attempt_status a')); [done |].
    destruct (drive _ _ _ _) as [err | [os evs]]; [done |].
    cbn [snd commit attempts]. by rewrite lookup_insert_ne.
Qed.

Lemma terminal_attempt_kept_run steps st ref a :
  attempts st !! ref = Some a ->
  attempt_terminal (attempt_status a) = true ->
  attempts (run retention steps st) !! ref = Some a.
Proof.
  revert st. induction steps as [| s steps IH]; intros st Ha Hterm; [done |].
  cbn [run fold_left]. apply IH; [| done].
  by apply terminal_attempt_kept.
Qed.

(** C4. Once a webhook event has been applied, delivering it again is a
    no-op, however often it is replayed and whatever other deliveries
    and delays come in between: the replay changes no order, no payment
    attempt and publishes no domain event. *)
Theorem webhook_replay_is_noop (e : WebhookEvent) (st : State)
    (steps : list Step) :
  fst (handleEvent retention e st) = Applied ->
  same_state
    (run retention steps (snd (handleEvent retention e st)))
    (snd (handleEvent retention e
            (run retention steps (snd (handleEvent retention e st))))).
Proof.
  intros Happlied.
  assert (eventType e = pending \/ eventType e <> pending) as [Hty | Hty]
    by (destruct (eventType e); auto).
  - by apply pending_event_same_state.
  - destruct (applied_event_settles e st Happlied Hty) as (a & Ha & Hterm).
    rewrite (terminal_attempt_noop e
               (run retention steps (snd (handleEvent retention e st))) a);
      [apply same_state_refl | | done].
    by apply terminal_attempt_kept_run.
Qed.

End Webhooks.

Lemma webhook_replay_is_noop_witness :
  fst (handleEvent 86400 evt_authorized awaiting_webhook) = Applied
  /\ orders (snd (handleEvent 86400 evt_authorized awaiting_webhook))
     = {[ "order-1" := order1_completed ]}
  /\ same_state
       (run 86400 [Deliver evt_authorized; Elapse 90000; Deliver evt_declined]
          (snd (handleEvent 86400 evt_authorized awaiting_webhook)))
       (snd (handleEvent 86400 evt_authorized
               (run 86400 [Deliver evt_authorized; Elapse 90000; Deliver evt_declined]
                  (snd (handleEvent 86400 evt_authorized awaiting_webhook))))).
Proof.
  split; [vm_compute; reflexivity |].
  split; [vm_compute; reflexivity |].
  apply (webhook_replay_is_noop 86400 evt_authorized awaiting_webhook).
  vm_compute. reflexivity.
Defined.

(** * Terminal states *)



Lemma stripe_refund_created o p s pi rid st :
  Stripe.intents s !! Stripe.rp_payment_intent p = Some pi ->
  Stripe.on_refund o = Stripe.RefundOk rid st ->
  exists rf s',
    Stripe.refund o p s = (Some rf, s')
    /\ Stripe.rf_id rf = rid
    /\ Stripe.rf_status rf = st
    /\ Stripe.rf_payment_intent rf = Stripe.rp_payment_intent p
    /\ Stripe.refunds s' = (Stripe.refunds s ++ [rf])%list.
Proof.
  intros Hpi Hreply. unfold Stripe.refund.
  cbn [Stripe.log Stripe.intents Stripe.refunds Stripe.calls].
  rewrite Hpi, Hreply. eexists _, _. split; [reflexivity |]. done.
Qed.

(** The owner's refund of a succeeded payment goes through to the
    collaborator. *)
Lemma refund_accepted u b o w pi rid st :
  validate_refund b = [] ->
  Stripe.intents (stripe w) !! tmpl (refund_paymentIntentId b) = Some pi ->
  Stripe.md_userId (Stripe.pi_metadata pi) = Some u ->
  Stripe.pi_status pi = "succeeded" ->
  Stripe.on_refund o = Stripe.RefundOk rid st ->
  fst (refund u b o w) = json (BRefund rid st "Refund processed successfully")
  /\ exists rf,
       Stripe.refunds (stripe (snd (refund u b o w)))
       = (Stripe.refunds (stripe w) ++ [rf])%list
       /\ Stripe.rf_id rf = rid
       /\ Stripe.rf_payment_intent rf = tmpl (refund_paymentIntentId b).
Proof.
  intros Hvalid Hpi Hown Hst Hreply.
  destruct (stripe_refund_created o (refund_params b)
              (Stripe.log (Stripe.CallRetrieve (tmpl (refund_paymentIntentId b)))
                 (stripe w)) pi rid st Hpi Hreply)
    as (rf & s' & Hrefund & Hrid & Hrst & Hrpi & Hrefunds).
  unfold refund. unfold_monad. rewrite Hvalid.
  rewrite (retrieve_found o _ _ pi Hpi).
  apply not_owner_false in Hown. rewrite Hown, Hst, String.eqb_refl.
  cbn [negb stripe now redis]. rewrite Hrefund.
  cbn [fst snd stripe now redis]. rewrite Hrid, Hrst.
  split; [reflexivity |]. exists rf. by rewrite Hrefunds.
Qed.




(** * Further properties of the routes *)

(** Membership in a list written out. *)
Ltac in_list :=
  repeat first [apply list_elem_of_here | apply list_elem_of_further].

(** ** Reads, failures and the shape of the traffic *)

(** X1. payment-status only reads: whatever the request, the clock, the
    cache and the collaborator's intents and refunds are afterwards what
    they were, and the collaborator was asked at most once, to retrieve
    the intent. *)
Theorem payment_status_only_reads (u id : string) (o : Stripe.Oracle) (w : World) :
  unchanged w (snd (payment_status u id o w))
  /\ (sent w (snd (payment_status u id o w)) []
      \/ sent w (snd (payment_status u id o w)) [Stripe.CallRetrieve id]).
Proof.
  unfold unchanged, sent. handler_cases.
  all: split; [done |]; rewrite ?app_nil_r; auto.
Qed.

Lemma retrieve_missing o id s :
  Stripe.intents s !! id = None ->
  Stripe.retrieve o id s
  = (match Stripe.on_missing o with
     | Stripe.MissingNull => Some None
     | Stripe.MissingThrows => None
     end, Stripe.log (Stripe.CallRetrieve id) s).
Proof.
  intros Hnone. unfold Stripe.retrieve. cbn [Stripe.intents Stripe.log].
  rewrite Hnone. by destruct (Stripe.on_missing o).
Qed.

Lemma status_unknown u id o w :
  cache_consistent w ->
  Stripe.intents (stripe w) !! id = None ->
  payment_status u id o w
  = (unknown_intent_answer (PaymentStatus u id) o, looked_up id w).
Proof.
  intros Hcc Hnone. unfold unknown_intent_answer, payment_status. unfold_monad.
  destruct (lookup_live (now w) (redis w) ("payment:" +:+ id)) as [g |] eqn:Hlive.
  - destruct (bool_decide (g !! "userId" = Some (JStr u))) eqn:Hu.
    + exfalso. apply bool_decide_eq_true in Hu.
      apply lookup_live_Some in Hlive as (e & Hrec & _).
      destruct (Hcc _ _ _ _ Hrec Hu) as (pi & Hpi & _). congruence.
    + cbv beta iota. rewrite (retrieve_missing o id _ Hnone).
      by destruct (Stripe.on_missing o).
  - cbv beta iota. rewrite (retrieve_missing o id _ Hnone).
    by destruct (Stripe.on_missing o).
Qed.

Lemma confirm_unknown u b o w :
  validate_confirm b = [] ->
  Stripe.intents (stripe w) !! tmpl (confirm_paymentIntentId b) = None ->
  confirm_payment u b o w
  = (unknown_intent_answer (ConfirmPayment u b) o,
     looked_up (tmpl (confirm_paymentIntentId b)) w).
Proof.
  intros Hvalid Hnone. unfold unknown_intent_answer, confirm_payment. unfold_monad.
  rewrite Hvalid, (retrieve_missing o _ _ Hnone).
  by destruct (Stripe.on_missing o).
Qed.

Lemma refund_unknown u b o w :
  validate_refund b = [] ->
  Stripe.intents (stripe w) !! tmpl (refund_paymentIntentId b) = None ->
  refund u b o w
  = (unknown_intent_answer (RefundPayment u b) o,
     looked_up (tmpl (refund_paymentIntentId b)) w).
Proof.
  intros Hvalid Hnone. unfold unknown_intent_answer, refund. unfold_monad.
  rewrite Hvalid, (retrieve_missing o _ _ Hnone).
  by destruct (Stripe.on_missing o).
Qed.

(** X3. A valid confirm-payment, payment-status or refund request naming
    an intent the collaborator does not know is answered 404 when the
    collaborator answers null and with the handler's 500 when it throws;
    the handler has only tried to look the intent up, so nothing is
    confirmed, refunded or written. *)
Theorem unknown_intent_not_found (w : World) (r : Request) (o : Stripe.Oracle)
    (id : string) :
  reachable w ->
  target r = Some id ->
  validation_errors r = [] ->
  Stripe.intents (stripe w) !! id = None ->
  handle r o w = (unknown_intent_answer r o, looked_up id w).
Proof.
  intros Hreach Htarget Hvalid Hnone.
  apply reachable_invariant in Hreach as [_ Hcc].
  destruct r as [u b | u b | u id' | u b]; cbn in Htarget, Hvalid |- *;
    simplify_eq.
  - by apply confirm_unknown.
  - by apply status_unknown.
  - by apply refund_unknown.
Qed.

Lemma unknown_intent_not_found_witness :
  handle (RefundPayment "alice" refund1_partial) answers_down world0
  = (status_json 500 (BError "Failed to process refund"), looked_up "pi_1" world0)
  /\ handle (ConfirmPayment "alice" confirm1) answers_null world0
     = (status_json 404 (BError "Payment intent not found"), looked_up "pi_1" world0).
Proof.
  split.
  - apply (unknown_intent_not_found world0 (RefundPayment "alice" refund1_partial)
             answers_down "pi_1");
      [apply reach_start, stripe0_well_formed | reflexivity | reflexivity | reflexivity].
  - apply (unknown_intent_not_found world0 (ConfirmPayment "alice" confirm1)
             answers_null "pi_1");
      [apply reach_start, stripe0_well_formed | reflexivity | reflexivity | reflexivity].
Defined.

(** X4. When the collaborator fails to create the intent, a valid
    create-payment-intent request for an order without a stored record
    is answered 500 'Failed to create payment intent' and nothing is
    kept: cache, intents and refunds are unchanged and the order still
    has no record, so the next attempt is sent to the collaborator
    again. *)
Theorem failed_creation_leaves_no_record (u : string) (b : CreateBody)
    (o : Stripe.Oracle) (w : World) :
  validate_create b = [] ->
  lookup_live (now w) (redis w) (intent_key b) = None ->
  code (fst (create_payment_intent u b o w)) <> 200 ->
  fst (create_payment_intent u b o w)
  = status_json 500 (BError "Failed to create payment intent")
  /\ unchanged w (snd (create_payment_intent u b o w))
  /\ sent w (snd (create_payment_intent u b o w))
       [Stripe.CallCreate (create_params u b)]
  /\ forall u' o',
       sent (snd (create_payment_intent u b o w))
         (snd (create_payment_intent u' b o'
                 (snd (create_payment_intent u b o w))))
         [Stripe.CallCreate (create_params u' b)].
Proof.
  intros Hvalid Hfresh Hcode.
  assert (fst (create_payment_intent u b o w)
          = status_json 500 (BError "Failed to create payment intent")
          /\ unchanged w (snd (create_payment_intent u b o w))
          /\ sent w (snd (create_payment_intent u b o w))
               [Stripe.CallCreate (create_params u b)]) as (Hresp & Hsame & Hsent).
  { revert Hcode. unfold unchanged, sent, intent_key in *.
    handler_cases; intros Hcode; try done. }
  split; [done |]. split; [done |]. split; [done |].
  intros u' o'.
  assert (lookup_live (now (snd (create_payment_intent u b o w)))
            (redis (snd (create_payment_intent u b o w))) (intent_key b) = None)
    as Hfresh'.
  { destruct Hsame as (-> & -> & _). done. }
  revert Hfresh'. generalize (snd (create_payment_intent u b o w)). intros w'.
  unfold sent, intent_key. intros Hfresh'. handler_cases; try done.
  all: destruct_and?; done.
Qed.

Lemma failed_creation_leaves_no_record_witness :
  fst (create_payment_intent "alice" order1 answers_down world0)
  = status_json 500 (BError "Failed to create payment intent")
  /\ unchanged world0 (snd (create_payment_intent "alice" order1 answers_down world0)).
Proof.
  destruct (failed_creation_leaves_no_record "alice" order1 answers_down world0)
    as (Hresp & Hsame & _);
    [reflexivity | reflexivity | vm_compute; discriminate |].
  split; [exact Hresp | exact Hsame].
Defined.

(** X6. The traffic of each handler has a fixed shape: create-payment-intent
    sends nothing or one create; payment-status nothing or one retrieve;
    confirm-payment nothing, a retrieve, or a retrieve followed by a
    confirm of the same intent; refund nothing, a retrieve, or a retrieve
    followed by one refund. No handler sends anything else. *)
Theorem handler_traffic (r : Request) (o : Stripe.Oracle) (w : World) :
  exists cs, sent w (snd (handle r o w)) cs /\ cs ∈ possible_calls r.
Proof.
  unfold sent.
  destruct r as [u b | u b | u id | u b]; cbn [possible_calls]; handler_cases.
  all: repeat match goal with H : Stripe.calls _ = _ |- _ => rewrite H end.
  all: rewrite <- ?app_assoc; cbn [app].
  all: first
    [ exists []; split; [by rewrite app_nil_r | in_list]
    | eexists; split; [reflexivity | in_list] ].
Qed.

(** X7. The status codes of each handler: create-payment-intent answers
    200, 400 or 500; confirm-payment and refund 200, 400, 403, 404 or
    500; payment-status 200, 403, 404 or 500. *)
Theorem handler_codes (r : Request) (o : Stripe.Oracle) (w : World) :
  code (fst (handle r o w)) ∈ possible_codes r.
Proof.
  destruct r as [u b | u b | u id | u b]; cbn [possible_codes]; handler_cases.
  all: cbn [code json status_json fst]; in_list.
Qed.

(** X9. No record without the collaborator: when a handler has changed
    the cache, the collaborator has done its part before. For
    create-payment-intent it was sent the create and holds a new intent;
    for confirm-payment it was sent the retrieve and the confirm and
    holds the intent with status 'succeeded'; for refund it was sent the
    retrieve and the refund and holds a new refund; payment-status never
    changes the cache. The answer is then none of the refusals 400, 403
    and 404, which are all sent before the first write. *)
Theorem cache_records_follow_collaborator (r : Request) (o : Stripe.Oracle)
    (w : World) :
  redis (snd (handle r o w)) <> redis w ->
  collaborator_did r w (snd (handle r o w))
  /\ code (fst (handle r o w)) <> 400
  /\ code (fst (handle r o w)) <> 403
  /\ code (fst (handle r o w)) <> 404.
Proof.
  destruct r as [u b | u b | u id | u b]; cbn [collaborator_did]; unfold sent;
    handler_cases; intros Hredis; try done.
  all: cbn [fst code json]; split; [| repeat split; discriminate].
  all: repeat match goal with H : Stripe.calls _ = _ |- _ => rewrite H end.
  all: rewrite <- ?app_assoc; cbn [app]; split; [reflexivity |].
  - destruct_and!. eexists. split; [eassumption |].
    match goal with H : Stripe.intents _ = _ |- _ => rewrite H end.
    apply lookup_insert_eq.
  - match goal with
    | H : exists _ _, _ |- _ => destruct H as (pi0 & st & _ & -> & ->)
    end.
    match goal with
    | H : String.eqb _ _ = true |- _ => apply String.eqb_eq in H
    end.
    eexists. split; [apply lookup_insert_eq | done].
  - match goal with
    | H : exists _ _, _ |- _ => destruct H as (pi0 & st & _ & -> & ->)
    end.
    match goal with
    | H : String.eqb _ _ = true |- _ => apply String.eqb_eq in H
    end.
    eexists. split; [apply lookup_insert_eq | done].
  - by eexists.
Qed.

Lemma cache_records_follow_collaborator_witness :
  redis (snd (handle (ConfirmPayment "alice" confirm1) answers world1)) <> redis world1
  /\ collaborator_did (ConfirmPayment "alice" confirm1) world1
       (snd (handle (ConfirmPayment "alice" confirm1) answers world1)).
Proof.
  assert (redis (snd (handle (ConfirmPayment "alice" confirm1) answers world1))
          <> redis world1) as Hwritten.
  { intros Heq. apply (f_equal (fun m => m !! "payment:pi_1")) in Heq.
    vm_compute in Heq. discriminate. }
  split; [exact Hwritten |].
  apply (cache_records_follow_collaborator (ConfirmPayment "alice" confirm1) answers
           world1 Hwritten).
Defined.


(** X15. What the handlers write: the cache never loses an entry, and an
    entry that is new or changed sits under [payment_intent:] with an
    expiry 3600 seconds ahead (written by create-payment-intent for its
    order, or by confirm-payment), under [payment:] with an expiry 86400
    seconds ahead (written by confirm-payment), or under [refund:] with
    an expiry 86400 seconds ahead (written by refund). *)
Theorem cache_writes (r : Request) (o : Stripe.Oracle) (w : World) (key : string) :
  (is_Some (redis w !! key) -> is_Some (redis (snd (handle r o w)) !! key))
  /\ (forall value expires,
        redis (snd (handle r o w)) !! key = Some (value, expires) ->
        redis w !! key <> Some (value, expires) ->
        written_by r key (expires - now w)).
Proof.
  destruct r as [u b | u b | u id | u b]; cbn [written_by]; handler_cases.
  all: split;
    [ intros Hsome; rewrite ?lookup_insert; repeat case_decide; eauto
    | intros value expires Hnew Hold; try done ].
  all: repeat match type of Hnew with
       | <[_ := _]> _ !! _ = Some _ =>
           apply lookup_insert_Some in Hnew as [[<- [= <- <-]] | [? Hnew]]
       end; try done.
  all: replace (now w1 + 3600 - now w1) with 3600 by lia;
       replace (now w1 + 86400 - now w1) with 86400 by lia; eauto 6.
Qed.

(** ** Ownership follows creation *)

Lemma create_first_intent u b o w pid secret st :
  validate_create b = [] ->
  lookup_live (now w) (redis w) (intent_key b) = None ->
  fst (create_payment_intent u b o w) = json (BIntent (Some (JStr pid)) secret st) ->
  exists pi,
    Stripe.intents (stripe (snd (create_payment_intent u b o w))) !! pid = Some pi
    /\ Stripe.intents (stripe w) !! pid = None
    /\ Stripe.pi_metadata pi
       = {| Stripe.md_orderId := orderId b; Stripe.md_userId := Some u |}.
Proof.
  intros Hvalid Hfresh. unfold intent_key in *.
  handler_cases; try done; intros [= <- _ _].
  destruct_and!. eexists. split; [| split; [eassumption |]].
  - match goal with H : Stripe.intents _ = _ |- _ => rewrite H end.
    apply lookup_insert_eq.
  - done.
Qed.

Lemma owner_not_denied r o w id pi :
  target r = Some id ->
  Stripe.intents (stripe w) !! id = Some pi ->
  Stripe.md_userId (Stripe.pi_metadata pi) = Some (requester r) ->
  code (fst (handle r o w)) <> 403.
Proof.
  intros Htarget Hpi Hown.
  destruct r as [u b | u b | u id' | u b]; cbn in Htarget, Hown; simplify_eq.
  all: handler_cases; cbn [code json status_json fst]; try done.
  all: absurd_path.
Qed.

(** X5. The user who creates a payment intent is its owner: after a
    first execution of create-payment-intent answered with the new
    intent, a valid confirm-payment, payment-status or refund request
    for that intent is answered 403 exactly when it comes from another
    user. *)
Theorem creator_owns_intent (w : World) (u : string) (b : CreateBody)
    (o : Stripe.Oracle) (pid : string) (secret st : option jval) :
  reachable w ->
  validate_create b = [] ->
  lookup_live (now w) (redis w) (intent_key b) = None ->
  fst (create_payment_intent u b o w) = json (BIntent (Some (JStr pid)) secret st) ->
  forall r o',
    target r = Some pid ->
    validation_errors r = [] ->
    code (fst (handle r o' (snd (create_payment_intent u b o w)))) = 403
    <-> requester r <> u.
Proof.
  intros Hreach Hvalid Hfresh Hresp r o' Htarget Hvalid'.
  destruct (create_first_intent u b o w pid secret st Hvalid Hfresh Hresp)
    as (pi & Hpi & _ & Hmd).
  assert (reachable (snd (create_payment_intent u b o w))) as Hreach'
    by apply (reach_handle w (CreatePaymentIntent u b) o Hreach).
  apply reachable_invariant in Hreach' as [_ Hcc].
  split.
  - intros Hcode Hsame.
    assert (Stripe.md_userId (Stripe.pi_metadata pi) = Some (requester r)) as Hown
      by (rewrite Hmd, Hsame; reflexivity).
    exact (owner_not_denied r o' _ pid pi Htarget Hpi Hown Hcode).
  - intros Hother.
    assert (Stripe.md_userId (Stripe.pi_metadata pi) <> Some (requester r)) as Hown
      by (rewrite Hmd; cbn; congruence).
    destruct r as [u' b' | u' b' | u' id' | u' b'];
      cbn in Htarget, Hvalid', Hown |- *; simplify_eq.
    + by rewrite (confirm_denied u' b' o' _ pi Hvalid' Hpi Hown).
    + by rewrite (status_denied u' _ o' _ pi Hcc Hpi Hown).
    + by rewrite (refund_denied u' b' o' _ pi Hvalid' Hpi Hown).
Qed.

Lemma creator_owns_intent_witness :
  code (fst (handle (ConfirmPayment "mallory" confirm1) answers world1)) = 403
  /\ code (fst (handle (ConfirmPayment "alice" confirm1) answers world1)) <> 403.
Proof.
  assert (forall r o',
            target r = Some "pi_1" -> validation_errors r = [] ->
            code (fst (handle r o' world1)) = 403 <-> requester r <> "alice") as Howner.
  { apply (creator_owns_intent world0 "alice" order1 answers "pi_1"
             (Some (JStr "secret_1")) (Some (JStr "requires_payment_method")));
      [apply reach_start, stripe0_well_formed | reflexivity | reflexivity
      | vm_compute; reflexivity]. }
  split.
  - apply (Howner (ConfirmPayment "mallory" confirm1) answers); [done | done |].
    cbn. discriminate.
  - intros Hcode.
    apply (Howner (ConfirmPayment "alice" confirm1) answers) in Hcode; done.
Defined.

(** ** Refunds *)





Lemma payment_status_answer u id o w :
  fst (payment_status u id o w)
  = status_answer u (lookup_live (now w) (redis w) ("payment:" +:+ id))
      (Stripe.intents (stripe w) !! id) o.
Proof.
  unfold status_answer, cached_for, payment_status. unfold_monad.
  unfold Stripe.retrieve. cbn [Stripe.intents Stripe.log].
  destruct (lookup_live (now w) (redis w) ("payment:" +:+ id)) as [rec |];
    [destruct (bool_decide (rec !! "userId" = Some (JStr u))) |];
    cbv beta iota; cbn [stripe Stripe.intents fst]; try reflexivity.
  all: destruct (Stripe.intents (stripe w) !! id) as [pi |];
       [destruct (not_owner u pi) | destruct (Stripe.on_missing o)]; reflexivity.
Qed.

(** A refund writes one record, under a [refund:] key, and leaves the
    clock and the intents alone. *)
Lemma refund_frame u b o w :
  now (snd (refund u b o w)) = now w
  /\ Stripe.intents (stripe (snd (refund u b o w))) = Stripe.intents (stripe w)
  /\ forall key,
       (forall rid, key <> "refund:" +:+ rid) ->
       redis (snd (refund u b o w)) !! key = redis w !! key.
Proof.
  handler_cases.
  all: split; [done |]; split; [done |]; intros key Hkey.
  all: try reflexivity.
  rewrite lookup_insert_ne; [done |]. intros <-. by eapply Hkey.
Qed.

(** X8. A refund changes nothing of what the service reports about
    payments: it leaves the collaborator's intents and every cache entry
    outside the [refund:] keys as they were, so payment-status gives any
    user the same answer after the refund request as before it. *)
Theorem refund_keeps_payment_reports (u' : string) (b : RefundBody)
    (o' : Stripe.Oracle) (w : World) :
  Stripe.intents (stripe (snd (refund u' b o' w))) = Stripe.intents (stripe w)
  /\ (forall key,
        (forall rid, key <> "refund:" +:+ rid) ->
        redis (snd (refund u' b o' w)) !! key = redis w !! key)
  /\ (forall u id o,
        fst (payment_status u id o (snd (refund u' b o' w)))
        = fst (payment_status u id o w)).
Proof.
  destruct (refund_frame u' b o' w) as (Hnow & Hintents & Hredis).
  split; [done |]. split; [done |].
  intros u id o. rewrite !payment_status_answer, Hnow, Hintents.
  unfold lookup_live. rewrite Hredis; [done |].
  intros rid. apply not_eq_sym, payment_key_not_refund_key.
Qed.

(** X12. Refunds are not deduplicated: each valid refund request of the
    owner of a succeeded payment that the collaborator grants creates a
    refund of its own for that payment, however many came before. *)
Theorem refunds_not_deduplicated (u : string) (b : RefundBody)
    (os : list Stripe.Oracle) (w : World) (pi : Stripe.PaymentIntent) :
  validate_refund b = [] ->
  Stripe.intents (stripe w) !! tmpl (refund_paymentIntentId b) = Some pi ->
  Stripe.md_userId (Stripe.pi_metadata pi) = Some u ->
  Stripe.pi_status pi = "succeeded" ->
  Forall refund_granted os ->
  exists created,
    Stripe.refunds (stripe (refund_repeatedly u b os w))
    = (Stripe.refunds (stripe w) ++ created)%list
    /\ length created = length os
    /\ Forall (fun rf => Stripe.rf_payment_intent rf = tmpl (refund_paymentIntentId b))
         created.
Proof.
  intros Hvalid Hpi Hown Hst Hgranted. revert w Hpi.
  induction Hgranted as [| o os (rid & st & Hreply) _ IH]; intros w Hpi.
  - exists []. by rewrite app_nil_r.
  - cbn [refund_repeatedly fold_left].
    destruct (refund_accepted u b o w pi rid st Hvalid Hpi Hown Hst Hreply)
      as (_ & rf & Hrefunds & _ & Hrf).
    destruct (refund_frame u b o w) as (_ & Hintents & _).
    destruct (IH (snd (refund u b o w))) as (created & Hall & Hlen & Hfor).
    { by rewrite Hintents. }
    exists (rf :: created). split; [| split].
    + unfold refund_repeatedly in Hall. rewrite Hall, Hrefunds.
      by rewrite <- app_assoc.
    + cbn. by rewrite Hlen.
    + by constructor.
Qed.

Lemma refunds_not_deduplicated_witness :
  exists created,
    Stripe.refunds (stripe (refund_repeatedly "alice" refund1 [answers; answers2] world2))
    = (Stripe.refunds (stripe world2) ++ created)%list
    /\ length created = 2%nat
    /\ Forall (fun rf => Stripe.rf_payment_intent rf = "pi_1") created.
Proof.
  apply (refunds_not_deduplicated "alice" refund1 [answers; answers2] world2
           (pi_1 "succeeded")).
  - reflexivity.
  - apply world2_intent.
  - reflexivity.
  - reflexivity.
  - repeat constructor; eexists _, _; reflexivity.
Defined.

(** ** The cached payment record *)

Lemma payment_data_agrees u pi t field :
  field ∈ payment_fields ->
  payment_data u pi t !! field = payment_view u pi !! field.
Proof.
  unfold payment_fields. rewrite !elem_of_cons, elem_of_nil.
  unfold payment_data, payment_view.
  destruct (Stripe.md_orderId (Stripe.pi_metadata pi));
    intros [-> | [-> | [-> | [-> | [-> | [-> | []]]]]]]; reflexivity.
Qed.

(** What a confirmation that succeeded leaves behind. *)
Lemma confirm_success_record u b o w :
  fst (confirm_payment u b o w)
  = json (BConfirm "succeeded" "Payment confirmed successfully") ->
  exists pi0 cp,
    Stripe.intents (stripe w) !! tmpl (confirm_paymentIntentId b) = Some pi0
    /\ Stripe.pi_id cp = Stripe.pi_id pi0
    /\ Stripe.intents (stripe (snd (confirm_payment u b o w)))
       = <[tmpl (confirm_paymentIntentId b) := cp]> (Stripe.intents (stripe w))
    /\ Stripe.pi_status cp = "succeeded"
    /\ Stripe.md_userId (Stripe.pi_metadata cp) = Some u
    /\ now (snd (confirm_payment u b o w)) = now w
    /\ redis (snd (confirm_payment u b o w)) !! ("payment:" +:+ Stripe.pi_id cp)
       = Some (payment_data u cp (now w), now w + 86400).
Proof.
  handler_cases; intros Hresp; try discriminate.
  all: match goal with
       | H : exists _ _, _ |- _ => destruct H as (pi0 & st & Hid & -> & Hs)
       end.
  all: match goal with
       | H : Stripe.intents _ !! _ = Some ?p, E : not_owner _ ?p = false |- _ =>
           rewrite Hid in H; injection H as <-; apply not_owner_false in E
       end.
  all: match goal with
       | H : String.eqb _ _ = true |- _ => apply String.eqb_eq in H
       end.
  all: exists pi0, (Stripe.with_status st pi0); split; [exact Hid |]; split; [reflexivity |].
  all: split; [exact Hs |]; split; [assumption |]; split; [assumption |].
  all: split; [reflexivity |]; apply lookup_insert_eq.
Qed.

(** X2. What confirm-payment stores, payment-status serves: after a
    confirmation answered 'Payment confirmed successfully', and for
    86400 seconds from then, payment-status answers the user who
    confirmed from the cache, without asking the collaborator; the
    payment it returns names the confirmed intent, that user and the
    status 'succeeded'. *)
Theorem confirmed_payment_served_from_cache (u : string) (b : ConfirmBody)
    (o : Stripe.Oracle) (w : World) :
  Stripe.well_formed (stripe w) ->
  fst (confirm_payment u b o w)
  = json (BConfirm "succeeded" "Payment confirmed successfully") ->
  forall d o', 0 <= d -> d < 86400 ->
    exists rec,
      payment_status u (tmpl (confirm_paymentIntentId b)) o'
        (elapse d (snd (confirm_payment u b o w)))
      = (json (BPayment rec), elapse d (snd (confirm_payment u b o w)))
      /\ rec !! "paymentIntentId" = Some (JStr (tmpl (confirm_paymentIntentId b)))
      /\ rec !! "userId" = Some (JStr u)
      /\ rec !! "status" = Some (JStr "succeeded").
Proof.
  intros Hwf Hresp d o' Hd Hlt.
  destruct (confirm_success_record u b o w Hresp)
    as (pi0 & cp & Hpi0 & Hcpid & _ & Hst & _ & Hnow & Hrec).
  rewrite Hcpid, (Hwf _ _ Hpi0) in Hrec.
  exists (payment_data u cp (now w)).
  assert (lookup_live (now (elapse d (snd (confirm_payment u b o w))))
            (redis (elapse d (snd (confirm_payment u b o w))))
            ("payment:" +:+ tmpl (confirm_paymentIntentId b))
          = Some (payment_data u cp (now w))) as Hlive.
  { apply lookup_live_Some. exists (now w + 86400). split; [exact Hrec |].
    cbn [elapse now]. lia. }
  assert (payment_data u cp (now w) !! "userId" = Some (JStr u)) as Hu
    by apply payment_data_userId.
  split; [| split; [| split; [exact Hu |]]].
  - revert Hlive. generalize (elapse d (snd (confirm_payment u b o w))).
    intros w' Hlive. unfold payment_status. unfold_monad.
    rewrite Hlive. by rewrite bool_decide_eq_true_2.
  - unfold payment_data. rewrite Hcpid, (Hwf _ _ Hpi0).
    destruct (Stripe.md_orderId (Stripe.pi_metadata cp)); reflexivity.
  - unfold payment_data. rewrite Hst.
    destruct (Stripe.md_orderId (Stripe.pi_metadata cp)); reflexivity.
Qed.

Lemma confirmed_payment_served_from_cache_witness :
  exists rec,
    payment_status "alice" "pi_1" answers_down (elapse 86399 world2)
    = (json (BPayment rec), elapse 86399 world2)
    /\ rec !! "paymentIntentId" = Some (JStr "pi_1")
    /\ rec !! "userId" = Some (JStr "alice")
    /\ rec !! "status" = Some (JStr "succeeded").
Proof.
  apply (confirmed_payment_served_from_cache "alice" confirm1 answers world1).
  - apply (reachable_invariant world1 world1_reachable).
  - vm_compute. reflexivity.
  - lia.
  - lia.
Defined.

(** A handler keeps the [payment:] records in step with the
    collaborator. *)
Lemma handle_payment_records_fresh r o w :
  Stripe.well_formed (stripe w) ->
  payment_records_fresh w ->
  payment_records_fresh (snd (handle r o w)).
Proof.
  intros Hwf Hfresh id rec expires Hrec.
  assert (redis w !! ("payment:" +:+ id) = Some (rec, expires) ->
          exists pi u t,
            Stripe.intents (stripe (snd (handle r o w))) !! id = Some pi
            /\ Stripe.pi_status pi = "succeeded"
            /\ Stripe.md_userId (Stripe.pi_metadata pi) = Some u
            /\ rec = payment_data u pi t) as Hold.
  { intros Hw. destruct (Hfresh _ _ _ Hw) as (pi & u & t & Hpi & Hst & Hown & ->).
    destruct (handle_intents r o w id pi Hpi) as (pi' & Hpi' & _ & _ & Hsame).
    rewrite (Hsame Hst) in Hpi'. by exists pi, u, t. }
  revert Hold Hrec. destruct r; handler_cases; intros Hold Hrec.
  all: try (by apply Hold).
  all: try (rewrite lookup_insert_ne in Hrec
              by first [apply payment_key_not_intent_key
                       | apply payment_key_not_refund_key];
            by apply Hold).
  all: match goal with
       | H : exists _ _, _ |- _ => destruct H as (pi0 & st & Hid & -> & Hs)
       end.
  all: match goal with
       | H : Stripe.intents _ !! _ = Some ?p, E : not_owner _ ?p = false |- _ =>
           rewrite Hid in H; injection H as <-; apply not_owner_false in E;
           rename E into Hown
       end.
  all: match goal with
       | H : String.eqb (Stripe.pi_status (Stripe.with_status _ _)) _ = true |- _ =>
           apply String.eqb_eq in H; rename H into Hst
       end.
  all: apply lookup_insert_Some in Hrec as [[Hkey Hval] | [_ Hrec]];
       [ apply payment_key_inj in Hkey; injection Hval as <- _;
         cbn [Stripe.with_status Stripe.pi_id] in Hkey;
         rewrite <- Hkey, (Hwf _ _ Hid), Hs, lookup_insert_eq;
         eexists _, _, _; split; [reflexivity |]; split; [exact Hst |];
         split; [exact Hown | reflexivity]
       | rewrite ?lookup_insert_ne in Hrec by apply payment_key_not_intent_key;
         by apply Hold ].
Qed.

Lemma reachable_payment_records_fresh w :
  reachable w -> payment_records_fresh w.
Proof.
  induction 1 as [t s Hwf | w r o Hreach Hfresh | w d _ _ Hfresh].
  - intros id rec expires Hrec. cbn in Hrec. by rewrite lookup_empty in Hrec.
  - apply handle_payment_records_fresh; [| done].
    by apply reachable_invariant.
  - done.
Qed.

(** X11. The cached payment record is never stale: in every world the
    service reaches, a live [payment:] record of a user belongs to an
    intent the collaborator holds with status 'succeeded' and that
    user's id in its metadata, and the record agrees with the payment
    payment-status would build from the collaborator's answer on
    paymentIntentId, orderId, userId, amount, currency and status. *)
Theorem cached_payment_matches_collaborator (w : World) (id u : string)
    (rec : jobj) :
  reachable w ->
  lookup_live (now w) (redis w) ("payment:" +:+ id) = Some rec ->
  rec !! "userId" = Some (JStr u) ->
  exists pi,
    Stripe.intents (stripe w) !! id = Some pi
    /\ Stripe.pi_status pi = "succeeded"
    /\ Stripe.md_userId (Stripe.pi_metadata pi) = Some u
    /\ forall field, field ∈ payment_fields ->
         rec !! field = payment_view u pi !! field.
Proof.
  intros Hreach Hlive Hu.
  apply lookup_live_Some in Hlive as (expires & Hrec & _).
  destruct (reachable_payment_records_fresh w Hreach id rec expires Hrec)
    as (pi & u' & t & Hpi & Hst & Hown & ->).
  rewrite payment_data_userId in Hu. injection Hu as ->.
  exists pi. split; [done |]. split; [done |]. split; [done |].
  intros field Hfield. by apply payment_data_agrees.
Qed.

Lemma cached_payment_matches_collaborator_witness :
  exists rec pi,
    lookup_live (now world2) (redis world2) "payment:pi_1" = Some rec
    /\ Stripe.intents (stripe world2) !! "pi_1" = Some pi
    /\ Stripe.pi_status pi = "succeeded"
    /\ rec !! "amount" = payment_view "alice" pi !! "amount".
Proof.
  assert (exists rec, lookup_live (now world2) (redis world2) ("payment:" +:+ "pi_1")
                      = Some rec /\ rec !! "userId" = Some (JStr "alice"))
    as (rec & Hlive & Hu) by (eexists; split; vm_compute; reflexivity).
  destruct (cached_payment_matches_collaborator world2 "pi_1" "alice" rec
              world2_reachable Hlive Hu) as (pi & Hpi & Hst & _ & Hfields).
  exists rec, pi. split; [exact Hlive |]. split; [exact Hpi |].
  split; [exact Hst |]. apply Hfields. unfold payment_fields. in_list.
Defined.

(** ** Intents over a run *)

Lemma perform_intents a w id pi :
  Stripe.intents (stripe w) !! id = Some pi ->
  exists pi',
    Stripe.intents (stripe (perform a w)) !! id = Some pi'
    /\ Stripe.pi_id pi' = Stripe.pi_id pi
    /\ Stripe.pi_metadata pi' = Stripe.pi_metadata pi
    /\ (Stripe.pi_status pi = "succeeded" -> pi' = pi).
Proof.
  intros Hpi. destruct a as [r o | d]; cbn [perform].
  - by apply handle_intents.
  - by exists pi.
Qed.

(** X16. Over any run of the service a payment intent is never lost and
    never changes hands: it stays filed under its identifier with the
    same metadata, so the user and the order it was created for remain
    the ones it belongs to; and once it has succeeded it does not change
    at all. *)
Theorem intents_keep_their_owner (actions : list Action) (w : World)
    (id : string) (pi : Stripe.PaymentIntent) :
  Stripe.intents (stripe w) !! id = Some pi ->
  exists pi',
    Stripe.intents (stripe (perform_all actions w)) !! id = Some pi'
    /\ Stripe.pi_id pi' = Stripe.pi_id pi
    /\ Stripe.pi_metadata pi' = Stripe.pi_metadata pi
    /\ (Stripe.pi_status pi = "succeeded" -> pi' = pi).
Proof.
  revert w pi. induction actions as [| a actions IH]; intros w pi Hpi.
  - by exists pi.
  - cbn [perform_all fold_left].
    destruct (perform_intents a w id pi Hpi) as (pi1 & Hpi1 & Hid1 & Hmd1 & Hsame1).
    destruct (IH (perform a w) pi1 Hpi1) as (pi2 & Hpi2 & Hid2 & Hmd2 & Hsame2).
    exists pi2. split; [exact Hpi2 |].
    split; [by rewrite Hid2 |]. split; [by rewrite Hmd2 |].
    intros Hst. rewrite <- (Hsame1 Hst). apply Hsame2.
    by rewrite (Hsame1 Hst).
Qed.

Lemma intents_keep_their_owner_witness :
  exists pi',
    Stripe.intents
      (stripe (perform_all [Handle (ConfirmPayment "alice" confirm1) answers;
                            Wait 7200;
                            Handle (CreatePaymentIntent "mallory" order1) answers2;
                            Handle (RefundPayment "alice" refund1) answers]
                 world1)) !! "pi_1" = Some pi'
    /\ Stripe.pi_metadata pi' = Stripe.pi_metadata (pi_1 "requires_payment_method").
Proof.
  destruct (intents_keep_their_owner
              [Handle (ConfirmPayment "alice" confirm1) answers;
               Wait 7200;
               Handle (CreatePaymentIntent "mallory" order1) answers2;
               Handle (RefundPayment "alice" refund1) answers]
              world1 "pi_1" (pi_1 "requires_payment_method") world1_intent)
    as (pi' & Hpi' & _ & Hmd & _).
  exists pi'. split; [exact Hpi' | exact Hmd].
Defined.

(** ** The record of an order *)

(** X17. The stored result is keyed by the order alone: while the record
    of an order is live, all valid create-payment-intent requests with
    that orderId get the same answer and change nothing, whatever their
    amount, currency, description, payment method and user. *)
Theorem stored_result_keyed_by_order (u1 u2 : string) (b1 b2 : CreateBody)
    (o1 o2 : Stripe.Oracle) (w : World) (rec : jobj) :
  validate_create b1 = [] ->
  validate_create b2 = [] ->
  orderId b1 = orderId b2 ->
  lookup_live (now w) (redis w) (intent_key b1) = Some rec ->
  create_payment_intent u1 b1 o1 w = create_payment_intent u2 b2 o2 w
  /\ snd (create_payment_intent u2 b2 o2 w) = w.
Proof.
  intros Hvalid1 Hvalid2 Horder Hrec.
  assert (lookup_live (now w) (redis w) (intent_key b2) = Some rec) as Hrec2
    by (unfold intent_key in *; by rewrite <- Horder).
  rewrite (create_cached u1 b1 o1 w rec Hvalid1 Hrec).
  by rewrite (create_cached u2 b2 o2 w rec Hvalid2 Hrec2).
Qed.

Lemma stored_result_keyed_by_order_witness :
  create_payment_intent "alice" order1 answers world1
  = create_payment_intent "mallory"
      {| amount := Some (of_Z 50); currency := Some "eur"; orderId := Some "order-1";
         paymentMethodId := Some "pm_9"; description := Some "other" |}
      answers2 world1.
Proof.
  assert (exists rec, lookup_live (now world1) (redis world1) (intent_key order1)
                      = Some rec) as [rec Hrec]
    by (eexists; vm_compute; reflexivity).
  apply (stored_result_keyed_by_order "alice" "mallory" order1 _ answers answers2
           world1 rec); [reflexivity | reflexivity | reflexivity | exact Hrec].
Defined.

Lemma confirm_success_intent_record u b o w pi0 rec :
  fst (confirm_payment u b o w)
  = json (BConfirm "succeeded" "Payment confirmed successfully") ->
  Stripe.intents (stripe w) !! tmpl (confirm_paymentIntentId b) = Some pi0 ->
  lookup_live (now w) (redis w)
    ("payment_intent:" +:+ tmpl (Stripe.md_orderId (Stripe.pi_metadata pi0)))
  = Some rec ->
  now (snd (confirm_payment u b o w)) = now w
  /\ redis (snd (confirm_payment u b o w))
       !! ("payment_intent:" +:+ tmpl (Stripe.md_orderId (Stripe.pi_metadata pi0)))
     = Some (<["confirmedAt" := JTime (now w)]> (<["status" := JStr "succeeded"]> rec),
             now w + 3600).
Proof.
  intros Hresp Hpi0 Hrec. revert Hresp Hpi0 Hrec.
  handler_cases; intros Hresp Hpi0; try discriminate.
  all: match goal with
       | H : exists _ _, _ |- _ => destruct H as (pi1 & st & Hid & -> & Hs)
       end;
       rewrite Hpi0 in Hid; injection Hid as <-;
       cbn [Stripe.with_status Stripe.pi_metadata Stripe.pi_id Stripe.pi_status] in *;
       match goal with
       | H : String.eqb _ _ = true |- _ => apply String.eqb_eq in H; subst
       end.
  all: match goal with
       | H : lookup_live _ _ _ = _ |- _ => rewrite H
       end; intros [= <-].
  split; [reflexivity |].
  rewrite lookup_insert_ne by (apply not_eq_sym, payment_key_not_intent_key).
  rewrite lookup_insert_eq. reflexivity.
Qed.

(** X18. A confirmation that succeeds shows in the record of the order:
    when confirm-payment answers 'Payment confirmed successfully' for an
    intent whose order has a live record, then for 3600 seconds from the
    confirmation every valid create-payment-intent request for that
    order is answered with the record's paymentIntentId and
    clientSecret and the status 'succeeded', and changes nothing. *)
Theorem confirmation_shows_in_order_record (u : string) (b : ConfirmBody)
    (o : Stripe.Oracle) (w : World) (pi0 : Stripe.PaymentIntent) (rec : jobj) :
  fst (confirm_payment u b o w)
  = json (BConfirm "succeeded" "Payment confirmed successfully") ->
  Stripe.intents (stripe w) !! tmpl (confirm_paymentIntentId b) = Some pi0 ->
  lookup_live (now w) (redis w)
    ("payment_intent:" +:+ tmpl (Stripe.md_orderId (Stripe.pi_metadata pi0)))
  = Some rec ->
  forall u' b' o' d,
    validate_create b' = [] ->
    tmpl (orderId b') = tmpl (Stripe.md_orderId (Stripe.pi_metadata pi0)) ->
    0 <= d -> d < 3600 ->
    create_payment_intent u' b' o' (elapse d (snd (confirm_payment u b o w)))
    = (json (BIntent (rec !! "paymentIntentId") (rec !! "clientSecret")
               (Some (JStr "succeeded"))),
       elapse d (snd (confirm_payment u b o w))).
Proof.
  intros Hresp Hpi0 Hrec u' b' o' d Hvalid Horder Hd Hlt.
  destruct (confirm_success_intent_record u b o w pi0 rec Hresp Hpi0 Hrec)
    as [Hnow Hnew].
  set (rec' := <["confirmedAt" := JTime (now w)]> (<["status" := JStr "succeeded"]> rec))
    in *.
  assert (rec' !! "paymentIntentId" = rec !! "paymentIntentId") as Hid
    by (unfold rec'; by rewrite !lookup_insert_ne).
  assert (rec' !! "clientSecret" = rec !! "clientSecret") as Hsecret
    by (unfold rec'; by rewrite !lookup_insert_ne).
  assert (rec' !! "status" = Some (JStr "succeeded")) as Hstatus
    by (unfold rec'; rewrite lookup_insert_ne by done; by rewrite lookup_insert_eq).
  rewrite <- Hid, <- Hsecret, <- Hstatus.
  apply create_cached; [done |].
  apply lookup_live_Some. exists (now w + 3600).
  unfold intent_key. rewrite Horder. cbn [elapse now redis].
  split; [exact Hnew | lia].
Qed.

Lemma confirmation_shows_in_order_record_witness :
  create_payment_intent "alice" order1 answers2 (elapse 3599 world2)
  = (json (BIntent (Some (JStr "pi_1")) (Some (JStr "secret_1"))
             (Some (JStr "succeeded"))),
     elapse 3599 world2).
Proof.
  assert (exists rec,
            lookup_live (now world1) (redis world1)
              ("payment_intent:" +:+
               tmpl (Stripe.md_orderId
                       (Stripe.pi_metadata (pi_1 "requires_payment_method"))))
            = Some rec
            /\ rec !! "paymentIntentId" = Some (JStr "pi_1")
            /\ rec !! "clientSecret" = Some (JStr "secret_1"))
    as (rec & Hrec & Hid & Hsecret)
    by (eexists; repeat split; vm_compute; reflexivity).
  rewrite <- Hid, <- Hsecret.
  apply (confirmation_shows_in_order_record "alice" confirm1 answers world1
           (pi_1 "requires_payment_method") rec).
  - vm_compute. reflexivity.
  - apply world1_intent.
  - exact Hrec.
  - reflexivity.
  - reflexivity.
  - lia.
  - lia.
Defined.

Lemma create_fresh_sends u b o w :
  validate_create b = [] ->
  lookup_live (now w) (redis w) (intent_key b) = None ->
  sent w (snd (create_payment_intent u b o w))
    [Stripe.CallCreate (create_params u b)].
Proof.
  intros Hvalid Hfresh. unfold sent, intent_key in *.
  handler_cases; try done. all: destruct_and?; done.
Qed.

(** X19. After its window a stored result is executed again: 3600
    seconds or more after a first execution of create-payment-intent,
    with nothing else handled in between, a valid request for the same
    order is sent to the collaborator as a new create, whoever sends
    it. *)
Theorem expired_record_is_executed_again (u : string) (b : CreateBody)
    (o : Stripe.Oracle) (w : World) :
  validate_create b = [] ->
  lookup_live (now w) (redis w) (intent_key b) = None ->
  code (fst (create_payment_intent u b o w)) = 200 ->
  forall d u' o', 3600 <= d ->
    sent (elapse d (snd (create_payment_intent u b o w)))
      (snd (create_payment_intent u' b o'
              (elapse d (snd (create_payment_intent u b o w)))))
      [Stripe.CallCreate (create_params u' b)].
Proof.
  intros Hvalid Hfresh Hok d u' o' Hd.
  apply create_fresh_sends; [done |].
  destruct (record_retained u b o w Hvalid Hfresh Hok d) as [_ Hexpired]; [lia |].
  by apply Hexpired.
Qed.

Lemma expired_record_is_executed_again_witness :
  sent (elapse 3600 world1)
    (snd (create_payment_intent "alice" order1 answers2 (elapse 3600 world1)))
    [Stripe.CallCreate (create_params "alice" order1)].
Proof.
  apply (expired_record_is_executed_again "alice" order1 answers world0).
  - reflexivity.
  - reflexivity.
  - vm_compute. reflexivity.
  - lia.
Defined.

(** * Properties of the addresses *)

Lemma append_cons c s t : String c s +:+ t = String c (s +:+ t).
Proof. reflexivity. Qed.

Lemma append_assoc (s t r : string) : (s +:+ t) +:+ r = s +:+ (t +:+ r).
Proof.
  induction s as [| c s IH]; [reflexivity |].
  by rewrite !append_cons, IH.
Qed.

Lemma trim_start_blank s : blank s = true -> Address.trim_start s = "".
Proof.
  induction s as [| c s IH]; cbn [blank Address.trim_start]; [done |].
  intros [Hc Hs]%andb_true_iff. by rewrite Hc, IH.
Qed.

Lemma trim_start_not_blank s :
  blank s = false ->
  exists c rest, Address.trim_start s = String c rest /\ Address.is_space c = false.
Proof.
  induction s as [| c s IH]; cbn [blank Address.trim_start]; [done |].
  destruct (Address.is_space c) eqn:Hc; cbn [andb]; [exact IH |].
  intros _. by exists c, s.
Qed.

Lemma trim_end_not_empty c rest :
  Address.is_space c = false -> Address.trim_end (String c rest) <> "".
Proof.
  intros Hc. cbn [Address.trim_end]. rewrite Hc.
  by destruct (Address.trim_end rest).
Qed.

(** [trim] leaves nothing exactly of the strings without a character
    above the space. *)
Lemma trim_isEmpty s : Address.isEmpty (Address.trim s) = blank s.
Proof.
  unfold Address.trim. destruct (blank s) eqn:Hblank.
  - by rewrite trim_start_blank.
  - destruct (trim_start_not_blank s Hblank) as (c & rest & -> & Hc).
    pose proof (trim_end_not_empty c rest Hc) as Hne.
    by destruct (Address.trim_end (String c rest)).
Qed.

(** X13. The second line of a shipping address: [getFullAddress] leaves
    it out when it is null, empty or made of characters up to the space
    only, and the text is then the street followed by city, state, zip
    code and country; any other second line is put after the street as
    it is given, without being trimmed. *)
Theorem second_line_of_full_address (a : Address.ShippingAddress) :
  Address.getFullAddress (Address.setStreet2 a None)
  = Address.str (Address.street a) +:+ locality a
  /\ forall s2,
       Address.getFullAddress (Address.setStreet2 a (Some s2))
       = if blank s2
         then Address.getFullAddress (Address.setStreet2 a None)
         else Address.str (Address.street a) +:+ ", " +:+ s2 +:+ locality a.
Proof.
  unfold Address.getFullAddress, locality. cbn [Address.setStreet2
    Address.street Address.street2 Address.city Address.state Address.zipCode
    Address.country].
  split.
  - by rewrite !append_assoc.
  - intros s2. rewrite trim_isEmpty. destruct (blank s2); cbn [negb].
    + reflexivity.
    + by rewrite !append_assoc.
Qed.

Lemma second_line_of_full_address_witness :
  Address.getFullAddress (Address.setStreet2 warehouse (Some "  "))
  = "12 Main St, Springfield, IL 62701, USA"
  /\ Address.getFullAddress (Address.setStreet2 warehouse (Some " Dock 4 "))
     = "12 Main St,  Dock 4 , Springfield, IL 62701, USA".
Proof.
  destruct (second_line_of_full_address warehouse) as [_ Hline].
  split.
  - rewrite (Hline "  "). reflexivity.
  - rewrite (Hline " Dock 4 "). reflexivity.
Defined.

Lemma billing_like_shipping (a : Address.BillingAddress) :
  Address.billing_getFullAddress a = Address.getFullAddress (as_shipping a)
  /\ Address.billing_getFullName a = Address.getFullName (as_shipping a).
Proof. by destruct a. Qed.

(** X14. The billing address prints like the shipping address: for the
    same field values [BillingAddress.getFullAddress] and
    [BillingAddress.getFullName] return what the methods of
    [ShippingAddress] return; so its second line too is left out when it
    is null or has no character above the space, and is otherwise put
    after the street as it is given. *)
Theorem billing_full_address (a : Address.BillingAddress) :
  Address.billing_getFullAddress a = Address.getFullAddress (as_shipping a)
  /\ Address.billing_getFullName a = Address.getFullName (as_shipping a)
  /\ Address.billing_getFullAddress a
     = Address.str (Address.billing_street a)
       +:+ match Address.billing_street2 a with
           | Some s2 => if blank s2 then "" else ", " +:+ s2
           | None => ""
           end
       +:+ locality (as_shipping a).
Proof.
  destruct (billing_like_shipping a) as [Haddress Hname].
  split; [exact Haddress |]. split; [exact Hname |].
  unfold Address.billing_getFullAddress, locality, as_shipping.
  cbn [Address.city Address.state Address.zipCode Address.country].
  destruct (Address.billing_street2 a) as [s2 |].
  - rewrite trim_isEmpty. destruct (blank s2); cbn [negb];
      by rewrite !append_assoc.
  - by rewrite !append_assoc.
Qed.
